(** * savvycodes/guard: the permission evaluator and its Express adapter

    A shallow embedding of
    - [packages/core/src/index.ts]: [definePermissions], [createGuard],
      [can], [cannot];
    - [packages/express/src/express.ts]: [PermissionDeniedError],
      [extractPermissions], [createGuard] (the middleware factory);
    - [packages/react/src/index.tsx]: [createGuard] (the provider, the hooks,
      the [Guard] component and [withPermission]).

    JavaScript values are an inductive type, exceptions are an explicit
    [result], and the middleware's calls to [next] are a log threaded by a
    small monad. *)

From Stdlib Require Import List String Ascii ZArith Bool Lia DecimalString.
Import ListNotations.
Local Open Scope string_scope.

(** ** JavaScript values and exceptions *)

(** The data a decoded token or a request carries.  Numbers are restricted to
    integers; [VObj] lists the data properties readable on an object. *)
#[warnings="-register-all"]
Inductive value : Type :=
| VUndefined
| VNull
| VBool (b : bool)
| VNum (n : Z)
| VStr (s : string)
| VArr (elems : list value)
| VObj (props : list (string * value)).

(** [class PermissionDeniedError extends Error]: the fields an instance
    exposes. *)
Record PermissionDeniedError : Type := mkPermissionDeniedError {
  name : string;
  message : string;
  code : string;
  status : Z
}.

(** What a [throw] can carry in the modelled code. *)
Inductive exn : Type :=
| TypeError (msg : string)
| Denied (e : PermissionDeniedError).

Inductive result (A : Type) : Type :=
| Ok (a : A)
| Throw (e : exn).
Arguments Ok {A} a.
Arguments Throw {A} e.

Definition bind {A B} (r : result A) (k : A -> result B) : result B :=
  match r with
  | Ok a => k a
  | Throw e => Throw e
  end.

Declare Scope js_scope.
Delimit Scope js_scope with js.
Notation "x <- c ;; k" := (bind c (fun x => k))
  (at level 61, c at next level, right associativity) : js_scope.
Local Open Scope js_scope.

(** [ToBoolean]: [undefined], [null], [false], [0] and the empty string are
    falsy, everything else (every array and object included) is truthy. *)
Definition truthy (v : value) : bool :=
  match v with
  | VUndefined | VNull => false
  | VBool b => b
  | VNum n => negb (n =? 0)%Z
  | VStr s => negb (s =? "")
  | VArr _ | VObj _ => true
  end.

(** The one-character strings of a string, in order: what iterating a string
    as an array-like collection visits. *)
Fixpoint chars (s : string) : list string :=
  match s with
  | EmptyString => []
  | String c s' => String c EmptyString :: chars s'
  end.

(** ** packages/core/src/index.ts *)

Module Core.

(** The required expression, [T | T[] | T[][]], as the run-time value it is:
    a string, or an array whose elements are strings or arrays of strings.
    ([null as any] and [undefined] are the two values the tests add.)  The
    literal [[]] has one representation, [RArr []]. *)
Inductive req_elem : Type :=
| EStr (s : string)
| EArr (perms : list string).

Inductive required_scopes : Type :=
| RUndefined
| RNull
| RStr (s : string)
| RArr (elems : list req_elem).

Definition truthy_required (r : required_scopes) : bool :=
  match r with
  | RUndefined | RNull => false
  | RStr s => negb (s =? "")
  | RArr _ => true
  end.

(** lodash [isString] on an element of the array. *)
Definition isString (e : req_elem) : bool :=
  match e with
  | EStr _ => true
  | EArr _ => false
  end.

(** lodash [every(collection, predicate)] over an array: left to right,
    stopping at the first element the predicate rejects; [true] on an empty
    collection. *)
Fixpoint every {A} (collection : list A) (predicate : A -> result bool)
  : result bool :=
  match collection with
  | [] => Ok true
  | x :: rest =>
      b <- predicate x ;;
      if b then every rest predicate else Ok false
  end.

(** [Array.prototype.some]: left to right, stopping at the first element the
    callback accepts; [false] on an empty array. *)
Fixpoint array_some {A} (arr : list A) (callback : A -> result bool)
  : result bool :=
  match arr with
  | [] => Ok false
  | x :: rest =>
      b <- callback x ;;
      if b then Ok true else array_some rest callback
  end.

(** [required.some(...)]: only an array has the method. *)
Definition some (required : required_scopes)
  (callback : req_elem -> result bool) : result bool :=
  match required with
  | RArr groups => array_some groups callback
  | _ => Throw (TypeError "required.some is not a function")
  end.

(** [every(scope, ...)] on one element of the normalized expression: an array
    is visited element by element, a string character by character. *)
Definition group_members (scope : req_elem) : list string :=
  match scope with
  | EArr perms => perms
  | EStr s => chars s
  end.

(** The strings of an all-string array. *)
Fixpoint strings_of (elems : list req_elem) : list string :=
  match elems with
  | [] => []
  | EStr s :: rest => s :: strings_of rest
  | EArr _ :: rest => strings_of rest
  end.

(** [Array.prototype.indexOf] with a string needle, [k] being the index of
    the head of [arr]: strict equality, so only a string element with the
    same characters matches. *)
Fixpoint array_indexOf (arr : list value) (needle : string) (k : Z) : Z :=
  match arr with
  | [] => (-1)%Z
  | VStr s :: rest =>
      if s =? needle then k else array_indexOf rest needle (k + 1)%Z
  | _ :: rest => array_indexOf rest needle (k + 1)%Z
  end.

(** [scopes.indexOf(permission)]: arrays and strings have the method (on a
    string it is a substring search); nothing else does. *)
Definition indexOf (scopes : value) (permission : string) : result Z :=
  match scopes with
  | VArr arr => Ok (array_indexOf arr permission 0)
  | VStr s =>
      match String.index 0 permission s with
      | Some i => Ok (Z.of_nat i)
      | None => Ok (-1)%Z
      end
  | _ => Throw (TypeError "scopes.indexOf is not a function")
  end.

(** The constant [required] of [can]: the expression brought to the shape
    "array of AND-groups".
    [isString(r) ? [[r]] : isArray(r) && every(r, isString) ? [r] : r]. *)
Definition normalize (requiredScopes : required_scopes) : required_scopes :=
  match requiredScopes with
  | RStr s => RArr [EArr [s]]
  | RArr elems =>
      if forallb isString elems then RArr [EArr (strings_of elems)]
      else requiredScopes
  | RUndefined | RNull => requiredScopes
  end.

Definition can (scopes : value) (requiredScopes : required_scopes)
  : result bool :=
  if negb (truthy_required requiredScopes) || negb (truthy scopes) then
    Ok false
  else
    let required := normalize requiredScopes in
    some required (fun scope =>
      every (group_members scope) (fun permission =>
        i <- indexOf scopes permission ;;
        Ok (negb (i =? -1)%Z))).

Definition cannot (scopes : value) (requiredScopes : required_scopes)
  : result bool :=
  b <- can scopes requiredScopes ;;
  Ok (negb b).

(** [definePermissions(...args)]: a single array argument is returned itself,
    any other argument list is returned as the list of its arguments. *)
Definition definePermissions (args : list value) : list value :=
  match args with
  | [VArr elems] => elems
  | _ => args
  end.

(** [defineRole] is another name of the same function. *)
Definition defineRole := definePermissions.

(** [Array.prototype.flat] (depth 1) on an array of permission lists. *)
Definition flat (permissionLists : list (list string)) : list string :=
  List.concat permissionLists.

(** A [Set] of strings as the list of its members in insertion order:
    [add] keeps a member that is already there where it is. *)
Definition Set_has (s : list string) (x : string) : bool :=
  existsb (String.eqb x) s.

Definition Set_add (s : list string) (x : string) : list string :=
  if Set_has s x then s else (s ++ [x])%list.

(** [new Set(iterable)], then [[...set]]. *)
Definition new_Set (iterable : list string) : list string :=
  fold_left Set_add iterable [].

(** [interface Guard<T>] *)
Module Guard.
Record t : Type := mk {
  can : value -> required_scopes -> result bool;
  cannot : value -> required_scopes -> result bool;
  permissions : unit -> list string
}.
End Guard.

Definition createGuard (permissionLists : list (list string)) : Guard.t :=
  let allPermissions := new_Set (flat permissionLists) in
  {| Guard.can := fun scopes requiredScopes => can scopes requiredScopes;
     Guard.cannot := fun scopes requiredScopes => cannot scopes requiredScopes;
     Guard.permissions := fun _ => allPermissions |}.

End Core.

(** ** packages/express/src/express.ts *)

Module Express.

(** [new PermissionDeniedError(message)]: the field initializers set [code]
    and [status], the constructor sets [name]; the message defaults when the
    argument is left out. *)
Definition new_PermissionDeniedError (msg : option string)
  : PermissionDeniedError :=
  {| name := "PermissionDeniedError";
     message := match msg with
                | Some m => m
                | None => "Forbidden: Insufficient permissions"
                end;
     code := "permission_denied";
     status := 403 |}.

(** [interface ExpressGuardOptions]: both properties optional. *)
Record ExpressGuardOptions : Type := mkOptions {
  requestProperty : option string;
  permissionsProperty : option string
}.

(** [options?.p || dflt]: the default also replaces an empty string. *)
Definition or_default (options : option ExpressGuardOptions)
  (p : ExpressGuardOptions -> option string) (dflt : string) : string :=
  match options with
  | None => dflt
  | Some o =>
      match p o with
      | None => dflt
      | Some s => if s =? "" then dflt else s
      end
  end.

(** *** Property access *)

Fixpoint lookup (key : string) (props : list (string * value)) : value :=
  match props with
  | [] => VUndefined
  | (k, v) :: rest => if k =? key then v else lookup key rest
  end.

(** The decimal numeral of [i], the form of an array-index property name. *)
Definition index_name (i : nat) : string :=
  NilZero.string_of_uint (Nat.to_uint i).

(** The index below [len] that the property name [key] denotes, if any. *)
Definition index_of_key (key : string) (len : nat) : option nat :=
  find (fun i => index_name i =? key) (seq 0 len).

(** [v[key]]: reading a property of [undefined] or [null] throws; an object
    gives the property or [undefined]; arrays and strings have [length] and
    their indices; a boolean or a number has no data property. *)
Definition get (v : value) (key : string) : result value :=
  match v with
  | VUndefined | VNull =>
      Throw (TypeError "Cannot read properties of undefined or null")
  | VObj props => Ok (lookup key props)
  | VArr elems =>
      if key =? "length" then Ok (VNum (Z.of_nat (List.length elems)))
      else match index_of_key key (List.length elems) with
           | Some i => Ok (nth i elems VUndefined)
           | None => Ok VUndefined
           end
  | VStr s =>
      if key =? "length" then Ok (VNum (Z.of_nat (String.length s)))
      else match index_of_key key (String.length s) with
           | Some i => Ok (nth i (map VStr (chars s)) VUndefined)
           | None => Ok VUndefined
           end
  | VBool _ | VNum _ => Ok VUndefined
  end.

(** *** Scope strings *)

(** [s.split(sep)] for a one-character separator: the pieces between the
    separators, empty pieces included; at least one piece. *)
Fixpoint split_by (is_sep : ascii -> bool) (s : string) : list string :=
  match s with
  | EmptyString => [EmptyString]
  | String c s' =>
      if is_sep c then EmptyString :: split_by is_sep s'
      else match split_by is_sep s' with
           | [] => [String c EmptyString]
           | piece :: pieces => String c piece :: pieces
           end
  end.

Definition split (sep : ascii) (s : string) : list string :=
  split_by (Ascii.eqb sep) s.

(** [extractPermissions(req, requestProperty, permissionsProperty)] *)
Definition extractPermissions (req : value)
  (requestProperty permissionsProperty : string) : result value :=
  user <- get req requestProperty ;;
  if negb (truthy user) then Ok (VArr [])
  else
    permissions <- get user permissionsProperty ;;
    if negb (truthy permissions) then Ok (VArr [])
    else
      match permissions with
      | VStr s => Ok (VArr (filter truthy (map VStr (split " " s))))
      | VArr _ => Ok permissions
      | _ => Ok (VArr [])
      end.

(** *** Middleware

    A request handler receives the request and [next]; the response object is
    never touched.  What a handler does is the list of its calls to [next]
    and, if an exception escapes it, that exception. *)

Inductive next_arg : Type :=
| NextEmpty                 (* next() *)
| NextWith (error : exn).   (* next(error) *)

Definition M (A : Type) : Type := list next_arg -> result A * list next_arg.

Definition m_bind {A B} (c : M A) (k : A -> M B) : M B :=
  fun calls =>
    match c calls with
    | (Ok a, calls') => k a calls'
    | (Throw e, calls') => (Throw e, calls')
    end.

Definition lift {A} (r : result A) : M A := fun calls => (r, calls).

Definition throw {A} (e : exn) : M A := fun calls => (Throw e, calls).

(** A call of [next] is recorded and returns: Express itself catches what
    the later handlers throw. *)
Definition next (arg : next_arg) : M unit :=
  fun calls => (Ok tt, (calls ++ [arg])%list).

(** [try { body } catch (error) { handler }] *)
Definition try_catch {A} (body : M A) (handler : exn -> M A) : M A :=
  fun calls =>
    match body calls with
    | (Ok a, calls') => (Ok a, calls')
    | (Throw e, calls') => handler e calls'
    end.

Declare Scope mw_scope.
Delimit Scope mw_scope with mw.
Notation "x <~ c ;; k" := (m_bind c (fun x => k))
  (at level 61, c at next level, right associativity) : mw_scope.

Definition RequestHandler : Type := value -> M unit.

(** Running a handler on a request, from an empty log. *)
Definition run (middleware : RequestHandler) (req : value)
  : result unit * list next_arg :=
  middleware req [].

(** [interface ExpressGuard<T>] *)
Module ExpressGuard.
Record t : Type := mk {
  check : Core.required_scopes -> RequestHandler;
  can : Core.required_scopes -> RequestHandler;
  cannot : Core.required_scopes -> RequestHandler
}.
End ExpressGuard.

(** [withUnless] hangs express-unless's [unless] on the handler and returns
    the same handler. *)
Definition withUnless (middleware : RequestHandler) : RequestHandler :=
  middleware.

Definition createGuard (guardInstance : Core.Guard.t)
  (options : option ExpressGuardOptions) : ExpressGuard.t :=
  let requestProperty := or_default options requestProperty "user" in
  let permissionsProperty :=
    or_default options permissionsProperty "permissions" in
  let getPermissions := fun req =>
    extractPermissions req requestProperty permissionsProperty in
  {| ExpressGuard.check := fun requiredPermissions =>
       withUnless (fun req =>
         try_catch
           (userPermissions <~ lift (getPermissions req) ;;
            hasPermission <~
              lift (Core.Guard.can guardInstance userPermissions
                      requiredPermissions) ;;
            if hasPermission then next NextEmpty
            else throw (Denied (new_PermissionDeniedError None)))%mw
           (fun error => next (NextWith error)));
     ExpressGuard.can := fun requiredPermissions =>
       withUnless (fun req =>
         try_catch
           (userPermissions <~ lift (getPermissions req) ;;
            hasPermission <~
              lift (Core.Guard.can guardInstance userPermissions
                      requiredPermissions) ;;
            if hasPermission then next NextEmpty
            else throw (Denied (new_PermissionDeniedError None)))%mw
           (fun error => next (NextWith error)));
     ExpressGuard.cannot := fun requiredPermissions =>
       withUnless (fun req =>
         try_catch
           (userPermissions <~ lift (getPermissions req) ;;
            lacksPermission <~
              lift (Core.Guard.cannot guardInstance userPermissions
                      requiredPermissions) ;;
            if lacksPermission then next NextEmpty
            else throw (Denied (new_PermissionDeniedError
                   (Some "Forbidden: User has permissions they should not have"))))%mw
           (fun error => next (NextWith error))) |}.

End Express.
(** ** Specification-side notions *)

Module Spec.
Import Core.

(** Membership of a permission in the held scopes "by exact string equality",
    as a boolean. *)
Definition is_scope (permission : string) (v : value) : bool :=
  match v with
  | VStr s => s =? permission
  | _ => false
  end.

Definition held (heldScopes : list value) (permission : string) : bool :=
  existsb (is_scope permission) heldScopes.

(** An element of the normalized expression all of whose members, as the
    code enumerates them, are held; used in the proofs. *)
Definition satisfied (heldScopes : list value) (group : req_elem) : Prop :=
  forall p, In p (group_members group) -> In (VStr p) heldScopes.

(** The AND-groups of an expression after normalization. *)
Definition groups_of (r : required_scopes) : list req_elem :=
  match normalize r with
  | RArr groups => groups
  | _ => []
  end.

(** "Deduplicated in first-seen order": the head stays, its later copies go. *)
Fixpoint dedup_first (l : list string) : list string :=
  match l with
  | [] => []
  | x :: rest => x :: remove string_dec x (dedup_first rest)
  end.

(** A non-empty string; [Boolean] on a string. *)
Definition nonempty (s : string) : bool := negb (s =? "").

(** The tokens of a scope string: the pieces between space characters
    (U+0020), empty pieces dropped. *)
Definition space_tokens (s : string) : list string :=
  filter nonempty (Express.split " " s).

(** "Split on whitespace with empty tokens discarded": the same with every
    ASCII white-space character (tab, line feed, vertical tab, form feed,
    carriage return, space) as a separator. *)
Definition is_whitespace (c : ascii) : bool :=
  existsb (Ascii.eqb c) ["009"; "010"; "011"; "012"; "013"; " "]%char.

Definition whitespace_tokens (s : string) : list string :=
  filter nonempty (Express.split_by is_whitespace s).

(** A scope string whose two tokens are separated by a tab. *)
Definition tab_separated : string :=
  String "a" (String "009" (String "b" EmptyString)).

(** The value [extractPermissions] makes of the permissions field. *)
Definition scopes_of_field (permissions : value) : value :=
  match permissions with
  | VStr s => VArr (map VStr (space_tokens s))
  | VArr elems => VArr elems
  | _ => VArr []
  end.

(** The two denials the middleware creates. *)
Definition insufficient : PermissionDeniedError :=
  {| name := "PermissionDeniedError";
     message := "Forbidden: Insufficient permissions";
     code := "permission_denied";
     status := 403 |}.

Definition unwanted : PermissionDeniedError :=
  {| name := "PermissionDeniedError";
     message := "Forbidden: User has permissions they should not have";
     code := "permission_denied";
     status := 403 |}.

(** The required expression by its declared shape: one permission, a flat
    list of permissions (all of them required), or a list of such lists
    (any one of them suffices). *)
Inductive expression : Type :=
| Single (p : string)
| AllOf (l : list string)
| AnyOf (ll : list (list string)).

(** The run-time value of an expression.  The empty array is one value:
    [AnyOf []] and [AllOf []] are both [[]]. *)
Definition to_required (e : expression) : required_scopes :=
  match e with
  | Single p => RStr p
  | AllOf l => RArr (map EStr l)
  | AnyOf ll => RArr (map EArr ll)
  end.

(** The AND-groups of an expression, by the rules of the specification:
    a single string gives [[[s]]], a flat list gives the one group of its
    elements, a list of lists is taken as it is. *)
Definition and_groups (e : expression) : list (list string) :=
  match e with
  | Single p => [[p]]
  | AllOf l => [l]
  | AnyOf ll => ll
  end.

(** At least one AND-group has all of its permissions among the held
    scopes, by equality of strings. *)
Definition granted (heldScopes : list value) (e : expression) : Prop :=
  exists g, In g (and_groups e) /\
            forall p, In p g -> In (VStr p) heldScopes.

(** Two lists of AND-groups that offer the same alternatives, whatever the
    order and the multiplicity of the groups and of the permissions in
    them. *)
Definition same_alternatives (gs gs' : list (list string)) : Prop :=
  (forall g, In g gs ->
     exists g', In g' gs' /\ forall p, In p g <-> In p g') /\
  (forall g', In g' gs' ->
     exists g, In g gs /\ forall p, In p g <-> In p g').

(** The strings a [Set] holding [acc] would still take in. *)
Definition fresh (acc : list string) (y : string) : bool :=
  negb (Set_has acc y).

End Spec.

(** ** packages/react/src/index.tsx *)

Module React.

(** A component as [withPermission] sees it: its optional [displayName] and
    its function name (empty for an anonymous function). *)
Module Component.
Record t : Type := mk {
  displayName : option string;
  name : string
}.
End Component.

(** What a component returns: [undefined], [null], a text, an element
    [<Component {...props} />], or a fragment [<>{child}</>]. *)
Inductive ReactNode : Type :=
| NodeUndefined
| NodeNull
| NodeText (s : string)
| NodeElement (component : Component.t) (props : list (string * value))
| NodeFragment (child : ReactNode).

(** [ReactNode | ((hasPermission: boolean) => ReactNode)]: what [typeof]
    tells apart. *)
Inductive content : Type :=
| Node (n : ReactNode)
| Callback (f : bool -> ReactNode).

(** A hook or a component returns, or throws: the [Error] of a missing
    provider, or what the guard threw. *)
Inductive thrown : Type :=
| Error (msg : string)
| Raised (e : exn).

Inductive outcome (A : Type) : Type :=
| Returns (a : A)
| Throws (t : thrown).
Arguments Returns {A} a.
Arguments Throws {A} t.

Definition and_then {A B} (o : outcome A) (k : A -> outcome B) : outcome B :=
  match o with
  | Returns a => k a
  | Throws t => Throws t
  end.

Definition of_result {A} (r : result A) : outcome A :=
  match r with
  | Ok a => Returns a
  | Throw e => Throws (Raised e)
  end.

Declare Scope hook_scope.
Delimit Scope hook_scope with hook.
Notation "x <== c ;; k" := (and_then c (fun x => k))
  (at level 61, c at next level, right associativity) : hook_scope.

(** [interface PermissionContextValue<T>] *)
Record PermissionContextValue : Type := mkContext {
  scopes : value;
  guard : Core.Guard.t
}.

(** [useContext(PermissionContext)] is the value of the nearest provider, or
    the default [undefined]: the explicit argument [context] below. *)

(** [PermissionProvider]: the children are rendered with the context value
    [{ scopes, guard }]. *)
Definition PermissionProvider {A} (scopes : value) (guard : Core.Guard.t)
  (children : option PermissionContextValue -> A) : A :=
  children (Some {| scopes := scopes; guard := guard |}).

Definition usePermissionContext (context : option PermissionContextValue)
  : outcome PermissionContextValue :=
  match context with
  | None =>
      Throws (Error
        "usePermissionContext must be used within a PermissionProvider")
  | Some c => Returns c
  end.

(** [useMemo(factory, deps)] returns what the factory returns, as on a first
    render or after a dependency changed; a later render with unchanged
    dependencies, where React hands back the remembered value, is not
    modelled. *)
Definition useMemo {A} (factory : unit -> A) : A := factory tt.

Definition useGuard (context : option PermissionContextValue)
  (requiredPermissions : Core.required_scopes) : outcome bool :=
  (c <== usePermissionContext context ;;
   let hasPermission :=
     useMemo (fun _ =>
       of_result (Core.Guard.can (guard c) (scopes c) requiredPermissions)) in
   hasPermission)%hook.

(** The component [Guard]; a prop left out is [undefined]. *)
Definition Guard (context : option PermissionContextValue)
  (check : Core.required_scopes) (children render : content)
  : outcome ReactNode :=
  (hasPermission <== useGuard context check ;;
   let content :=
     match render with
     | Node NodeUndefined => children
     | _ => render
     end in
   match content with
   | Callback f => Returns (NodeFragment (f hasPermission))
   | Node n => Returns (NodeFragment (if hasPermission then n else NodeNull))
   end)%hook.

(** [React.FC<P>] with its [displayName]. *)
Module FC.
Record t : Type := mk {
  render : option PermissionContextValue -> list (string * value)
           -> outcome ReactNode;
  displayName : string
}.
End FC.

(** [a || b] on an optional string and a string. *)
Definition or_name (a : option string) (b : string) : string :=
  match a with
  | Some s => if s =? "" then b else s
  | None => b
  end.

Definition withPermission (requiredPermissions : Core.required_scopes)
  (Component : Component.t) : FC.t :=
  {| FC.render := fun context props =>
       (hasPermission <== useGuard context requiredPermissions ;;
        if negb hasPermission then Returns NodeNull
        else Returns (NodeElement Component props))%hook;
     FC.displayName :=
       "withPermission(" ++
       or_name (Component.displayName Component)
         (or_name (Some (Component.name Component)) "Component") ++ ")" |}.

(** What [createGuard(_guardInstance)] returns. *)
Module Utilities.
Record t : Type := mk {
  PermissionProvider :
    value -> Core.Guard.t ->
    (option PermissionContextValue -> outcome ReactNode) -> outcome ReactNode;
  usePermissionContext :
    option PermissionContextValue -> outcome PermissionContextValue;
  useGuard :
    option PermissionContextValue -> Core.required_scopes -> outcome bool;
  Guard :
    option PermissionContextValue -> Core.required_scopes ->
    content -> content -> outcome ReactNode;
  withPermission : Core.required_scopes -> Component.t -> FC.t
}.
End Utilities.

Definition createGuard (_guardInstance : Core.Guard.t) : Utilities.t :=
  {| Utilities.PermissionProvider := PermissionProvider;
     Utilities.usePermissionContext := usePermissionContext;
     Utilities.useGuard := useGuard;
     Utilities.Guard := Guard;
     Utilities.withPermission := withPermission |}.

End React.

(** ** Further specification-side notions *)

Module SpecMore.
Import Core Spec.

(** [p] occurs in [s] as a run of consecutive characters. *)
Definition occurs_in (p s : string) : Prop :=
  exists before after, s = before ++ p ++ after.

(** A string without the space character. *)
Definition space_free (s : string) : Prop :=
  forall c, In c (list_ascii_of_string s) -> c <> " "%char.

(** The request handlers of an adapter, by name. *)
Inductive which : Type := ByCheck | ByCan | ByCannot.

Definition handler (eg : Express.ExpressGuard.t) (w : which)
  : required_scopes -> Express.RequestHandler :=
  match w with
  | ByCheck => Express.ExpressGuard.check eg
  | ByCan => Express.ExpressGuard.can eg
  | ByCannot => Express.ExpressGuard.cannot eg
  end.

End SpecMore.

(** ** The evaluator: proofs *)

Module CoreProofs.
Import Core Spec.

(** *** Pure callbacks *)

Lemma every_pure {A} (f : A -> bool) (predicate : A -> result bool) l :
  (forall x, In x l -> predicate x = Ok (f x)) ->
  every l predicate = Ok (forallb f l).
Proof.
  induction l as [|x l IH]; intros Hp; simpl.
  - reflexivity.
  - rewrite (Hp x (or_introl eq_refl)). simpl.
    destruct (f x); [apply IH; intros y Hy; apply Hp; now right|reflexivity].
Qed.

Lemma array_some_pure {A} (f : A -> bool) (callback : A -> result bool) l :
  (forall x, In x l -> callback x = Ok (f x)) ->
  array_some l callback = Ok (existsb f l).
Proof.
  induction l as [|x l IH]; intros Hp; simpl.
  - reflexivity.
  - rewrite (Hp x (or_introl eq_refl)). simpl.
    destruct (f x); [reflexivity|apply IH; intros y Hy; apply Hp; now right].
Qed.

(** *** [indexOf] on an array is a membership test *)

Lemma array_indexOf_held arr p from :
  (0 <= from)%Z ->
  negb (array_indexOf arr p from =? -1)%Z = held arr p.
Proof.
  revert from; induction arr as [|v arr IH]; intros from Hfrom; simpl.
  - reflexivity.
  - assert (Hrec : negb (array_indexOf arr p (from + 1) =? -1)%Z = held arr p)
      by (apply IH; lia).
    destruct v; simpl; try exact Hrec.
    destruct (s =? p); simpl; [|exact Hrec].
    destruct (Z.eqb_spec from (-1)); [lia|reflexivity].
Qed.

Lemma held_In h p : held h p = true <-> In (VStr p) h.
Proof.
  unfold held. rewrite existsb_exists. split.
  - intros [v [Hin Hv]]. destruct v; simpl in Hv; try discriminate.
    apply String.eqb_eq in Hv. now subst.
  - intros Hin. exists (VStr p). split; [exact Hin|]. simpl. apply String.eqb_refl.
Qed.

Lemma forallb_held_satisfied h g :
  forallb (held h) (group_members g) = true <-> satisfied h g.
Proof.
  rewrite forallb_forall. unfold satisfied.
  split; intros H p Hp; apply held_In; now apply H.
Qed.

(** *** [can] on an array of held scopes *)

Lemma normalize_groups r :
  truthy_required r = true -> normalize r = RArr (groups_of r).
Proof.
  unfold groups_of. destruct r as [| |s|elems]; simpl; try discriminate.
  - reflexivity.
  - intros _. now destruct (forallb isString elems).
Qed.

Lemma can_array h r :
  truthy_required r = true ->
  can (VArr h) r =
  Ok (existsb (fun g => forallb (held h) (group_members g)) (groups_of r)).
Proof.
  intros Hr. unfold can. rewrite Hr. simpl.
  rewrite (normalize_groups r Hr). simpl.
  apply array_some_pure. intros g _.
  apply every_pure. intros p _. simpl.
  now rewrite array_indexOf_held by lia.
Qed.

Lemma can_falsy scopes r :
  truthy scopes = false \/ truthy_required r = false ->
  can scopes r = Ok false.
Proof.
  unfold can. intros [H|H]; rewrite H; simpl;
    [now rewrite orb_true_r|reflexivity].
Qed.

Lemma can_array_returns h r : exists b, can (VArr h) r = Ok b.
Proof.
  destruct (truthy_required r) eqn:Hr.
  - eexists. now apply can_array.
  - exists false. apply can_falsy. now right.
Qed.

Lemma existsb_satisfied h gs :
  existsb (fun g => forallb (held h) (group_members g)) gs = true <->
  exists g, In g gs /\ satisfied h g.
Proof.
  rewrite existsb_exists.
  split; intros [g [Hin Hg]]; exists g; (split; [exact Hin|]);
    now apply forallb_held_satisfied.
Qed.

Lemma strings_of_map_EStr l : strings_of (map EStr l) = l.
Proof. induction l as [|x l IH]; simpl; [reflexivity|now rewrite IH]. Qed.

Lemma forallb_isString_map_EStr l : forallb isString (map EStr l) = true.
Proof. induction l as [|x l IH]; simpl; [reflexivity|exact IH]. Qed.

Lemma forallb_isString_map_EArr ll :
  ll <> [] -> forallb isString (map EArr ll) = false.
Proof. destruct ll; [congruence|reflexivity]. Qed.

(** *** The three shapes on an array of held scopes *)

Lemma can_single h p :
  p <> "" -> can (VArr h) (RStr p) = Ok (held h p).
Proof.
  intros Hp. rewrite can_array.
  - unfold groups_of. simpl. now rewrite andb_true_r, orb_false_r.
  - simpl. apply negb_true_iff. now apply String.eqb_neq.
Qed.

Lemma can_flat h l :
  can (VArr h) (RArr (map EStr l)) = Ok (forallb (held h) l).
Proof.
  rewrite can_array by reflexivity. unfold groups_of. simpl.
  rewrite forallb_isString_map_EStr, strings_of_map_EStr. simpl.
  now rewrite orb_false_r.
Qed.

Lemma existsb_map_EArr h ll :
  existsb (fun g => forallb (held h) (group_members g)) (map EArr ll)
  = existsb (forallb (held h)) ll.
Proof. induction ll as [|g ll IH]; simpl; [reflexivity|now rewrite IH]. Qed.

Lemma can_nested h ll :
  ll <> [] ->
  can (VArr h) (RArr (map EArr ll)) = Ok (existsb (forallb (held h)) ll).
Proof.
  intros Hll. rewrite can_array by reflexivity. unfold groups_of. simpl.
  rewrite forallb_isString_map_EArr by exact Hll.
  now rewrite existsb_map_EArr.
Qed.

Lemma expression_eq_dec (e e' : expression) : {e = e'} + {e <> e'}.
Proof.
  decide equality; repeat (apply list_eq_dec); apply string_dec.
Defined.

Lemma can_expression h e :
  e <> Single "" -> e <> AnyOf [] ->
  can (VArr h) (to_required e)
  = Ok (existsb (forallb (held h)) (and_groups e)).
Proof.
  intros Htruthy Hshape. destruct e as [p|l|ll]; simpl.
  - rewrite can_single by congruence. simpl.
    now rewrite andb_true_r, orb_false_r.
  - rewrite can_flat. simpl. now rewrite orb_false_r.
  - apply can_nested. congruence.
Qed.

Lemma existsb_granted h e :
  existsb (forallb (held h)) (and_groups e) = true <-> granted h e.
Proof.
  unfold granted. rewrite existsb_exists.
  split; intros [g [Hin Hg]]; exists g; (split; [exact Hin|]).
  - intros p Hp. apply held_In.
    rewrite forallb_forall in Hg. now apply Hg.
  - apply forallb_forall. intros p Hp. apply held_In. now apply Hg.
Qed.

Lemma normalize_expression e :
  e <> AnyOf [] ->
  normalize (to_required e) = RArr (map EArr (and_groups e)).
Proof.
  intros Hshape. destruct e as [p|l|ll]; simpl.
  - reflexivity.
  - now rewrite forallb_isString_map_EStr, strings_of_map_EStr.
  - rewrite forallb_isString_map_EArr; [reflexivity|congruence].
Qed.

(** *** The registry: [new Set] keeps first occurrences *)

Lemma filter_fresh_remove_seen acc x l :
  Set_has acc x = true ->
  filter (fresh acc) (remove string_dec x l) = filter (fresh acc) l.
Proof.
  intros Hx. induction l as [|y l IH]; simpl; [reflexivity|].
  destruct (string_dec x y) as [->|Hne]; simpl.
  - unfold fresh at 2. now rewrite Hx.
  - now rewrite IH.
Qed.

Lemma filter_fresh_snoc acc x l :
  filter (fresh (acc ++ [x])) l = filter (fresh acc) (remove string_dec x l).
Proof.
  induction l as [|y l IH]; simpl; [reflexivity|].
  assert (Hy : fresh (acc ++ [x]) y = fresh acc y && negb (y =? x)).
  { unfold fresh, Set_has. rewrite existsb_app. simpl.
    rewrite orb_false_r. apply negb_orb. }
  rewrite Hy. destruct (string_dec x y) as [->|Hne]; simpl.
  - rewrite String.eqb_refl, andb_false_r. exact IH.
  - assert (Hyx : (y =? x) = false) by (apply String.eqb_neq; congruence).
    rewrite Hyx, andb_true_r, IH. reflexivity.
Qed.

Lemma fold_Set_add l : forall acc,
  fold_left Set_add l acc = (acc ++ filter (fresh acc) (dedup_first l))%list.
Proof.
  induction l as [|x l IH]; intros acc; simpl.
  - now rewrite app_nil_r.
  - unfold Set_add at 2. unfold fresh at 1.
    destruct (Set_has acc x) eqn:Hx; simpl; rewrite IH.
    + now rewrite filter_fresh_remove_seen.
    + now rewrite filter_fresh_snoc, <- app_assoc.
Qed.

Lemma new_Set_dedup_first l : new_Set l = dedup_first l.
Proof.
  unfold new_Set. rewrite fold_Set_add. simpl.
  induction (dedup_first l) as [|y d IH]; simpl; [reflexivity|now rewrite IH].
Qed.

Lemma dedup_first_In l x : In x (dedup_first l) <-> In x l.
Proof.
  induction l as [|y l IH]; simpl; [tauto|].
  split.
  - intros [->|H]; [now left|].
    apply in_remove in H. right. now apply IH.
  - intros [->|H]; [now left|].
    destruct (string_dec y x) as [->|Hne]; [now left|].
    right. apply in_in_remove; [congruence|now apply IH].
Qed.

Lemma dedup_first_NoDup l : NoDup (dedup_first l).
Proof.
  induction l as [|y l IH]; simpl; constructor.
  - apply remove_In.
  - rewrite <- remove_alt. now apply NoDup_filter.
Qed.

(** *** The examples of the README and of the specification *)

Example can_examples :
  can (VArr [VStr "user:write"]) (RArr [EArr ["user:write"]; EArr ["admin"]])
  = Ok true
  /\ can (VArr [VStr "user:write"]) (RArr [EStr "user:write"; EStr "admin"])
     = Ok false
  /\ can (VArr [VStr "user:write"]) (RStr "user:write") = Ok true
  /\ can (VArr [VStr "user:write"]) (RArr [EStr "permission:not:in:scope"])
     = Ok false
  /\ can (VArr [VStr "a"; VStr "b"]) (RArr [EStr "a"; EStr "b"]) = Ok true
  /\ can (VArr [VStr "a"]) (RArr [EStr "a"; EStr "b"]) = Ok false
  /\ can (VArr [VStr "a"]) (RArr [EArr ["a"]; EArr ["b"]]) = Ok true
  /\ can (VArr [VStr "c"]) (RArr [EArr ["a"]; EArr ["b"]]) = Ok false.
Proof. repeat split. Qed.

(** *** Claims about [can] and [cannot] *)

(** C1 (as amended).  For every array of held scopes, [can(heldScopes, [])]
    is [true]: the empty array passes the all-strings test vacuously, is
    wrapped as the single empty AND-group [[[]]], and that group is
    vacuously satisfied.  [some] over an empty list of AND-groups would
    give [false], but no truthy expression normalizes to an empty list. *)
Theorem can_empty_list_admits (h : list value) :
  normalize (RArr []) = RArr [EArr []]
  /\ can (VArr h) (RArr []) = Ok true
  /\ (forall callback, some (RArr []) callback = Ok false)
  /\ (forall r, truthy_required r = true -> groups_of r <> []).
Proof.
  repeat split.
  intros r Hr. unfold groups_of.
  destruct r as [| |s|elems]; simpl in *; try discriminate.
  destruct (forallb isString elems) eqn:Hall; [discriminate|].
  destruct elems; [discriminate|discriminate].
Qed.

Lemma can_empty_list_admits_witness :
  truthy_required (RStr "a") = true /\ groups_of (RStr "a") <> [].
Proof.
  split; [reflexivity|].
  apply (can_empty_list_admits []). reflexivity.
Defined.

(** C1 as stated fails: [can(["a"], [])] is [true], not [false]. *)
Lemma can_empty_list_counterexample :
  can (VArr [VStr "a"]) (RArr []) = Ok true
  /\ can (VArr [VStr "a"]) (RArr []) <> Ok false.
Proof. split; [reflexivity|discriminate]. Qed.

(** C2.  For an array of held scopes and a truthy required expression of
    any of the three shapes, [can] is [true] exactly when at least one
    AND-group of the expression (a single string [s] gives [[[s]]], a flat
    list gives the one group of its elements, a list of lists is taken as it
    is) has every permission among the held scopes by equality of strings,
    and [false] otherwise.  The answer does not change when the held scopes,
    the groups or the permissions inside a group are reordered or repeated.
    The code's normalization yields these very groups.  (The empty array is
    the flat list [AllOf []]; as a run-time value [AnyOf []] is the same.) *)
Theorem can_iff_some_group_satisfied (h : list value) (e : expression)
  (Htruthy : e <> Single "") (Hshape : e <> AnyOf []) :
  (can (VArr h) (to_required e) = Ok true <-> granted h e)
  /\ (can (VArr h) (to_required e) = Ok false <-> ~ granted h e)
  /\ (forall h', (forall p, In (VStr p) h <-> In (VStr p) h') ->
      can (VArr h') (to_required e) = can (VArr h) (to_required e))
  /\ (forall e', e' <> Single "" -> e' <> AnyOf [] ->
      same_alternatives (and_groups e) (and_groups e') ->
      can (VArr h) (to_required e') = can (VArr h) (to_required e))
  /\ normalize (to_required e) = RArr (map EArr (and_groups e))
  /\ to_required (AnyOf []) = to_required (AllOf []).
Proof.
  assert (Hbool : forall b, Ok b = Ok true <-> b = true)
    by (intros b; split; [now intros [= ->]|now intros ->]).
  split; [rewrite can_expression, Hbool by assumption;
          apply existsb_granted|].
  split.
  { rewrite can_expression, <- existsb_granted by assumption.
    destruct (existsb _ _); split; try discriminate; congruence. }
  split.
  { intros h' Hh. rewrite !can_expression by assumption. f_equal.
    apply eq_iff_eq_true. rewrite !existsb_granted.
    split; intros [g [Hin Hg]]; exists g; (split; [exact Hin|]);
      intros p Hp; apply Hh; now apply Hg. }
  split.
  { intros e' Htruthy' Hshape' [H1 H2].
    rewrite !can_expression by assumption. f_equal.
    apply eq_iff_eq_true. rewrite !existsb_granted.
    split; intros [g [Hin Hg]].
    - destruct (H2 g Hin) as [g0 [Hin0 Hsame]]. exists g0.
      split; [exact Hin0|]. intros p Hp. apply Hg. now apply Hsame.
    - destruct (H1 g Hin) as [g0 [Hin0 Hsame]]. exists g0.
      split; [exact Hin0|]. intros p Hp. apply Hg. now apply Hsame. }
  split; [now apply normalize_expression|reflexivity].
Qed.

Lemma can_iff_some_group_satisfied_witness :
  AllOf ["a"; "b"] <> Single "" /\ AllOf ["a"; "b"] <> AnyOf []
  /\ (can (VArr [VStr "b"; VStr "a"]) (to_required (AllOf ["a"; "b"]))
      = Ok true <->
      granted [VStr "b"; VStr "a"] (AllOf ["a"; "b"])).
Proof.
  split; [discriminate|]. split; [discriminate|].
  apply (can_iff_some_group_satisfied [VStr "b"; VStr "a"] (AllOf ["a"; "b"]));
    discriminate.
Defined.

(** C4 (as amended).  [can] fails closed, and does not throw on arguments of
    the declared kinds: when the held scopes are [null] or [undefined], or
    the required expression is [null], [undefined] or the empty string (more
    generally, when either argument is falsy), the guard on the first line
    answers [false]; and when the held scopes are [null], [undefined] or an
    array and the required expression is [null], [undefined], a string or
    an array of strings and arrays of strings, [can] returns a boolean. *)
Theorem can_fail_closed_total (scopes : value) (r : required_scopes) :
  (scopes = VUndefined \/ scopes = VNull \/
   r = RUndefined \/ r = RNull \/ r = RStr "" -> can scopes r = Ok false)
  /\ (truthy scopes = false \/ truthy_required r = false ->
      can scopes r = Ok false)
  /\ (scopes = VUndefined \/ scopes = VNull \/ (exists h, scopes = VArr h) ->
      exists b, can scopes r = Ok b).
Proof.
  assert (Hfalsy := can_falsy scopes r).
  split; [|split; [exact Hfalsy|]].
  - intros [->|[->|[->|[->| ->]]]]; apply Hfalsy; auto.
  - intros [->|[->|[h ->]]].
    + exists false. apply Hfalsy. now left.
    + exists false. apply Hfalsy. now left.
    + apply can_array_returns.
Qed.

Lemma can_fail_closed_total_witness :
  can VNull (RStr "a") = Ok false
  /\ can (VArr [VStr "a"]) RNull = Ok false
  /\ can (VArr [VStr "a"]) (RStr "") = Ok false
  /\ exists b, can (VArr [VStr "a"]) (RArr [EArr [EmptyString]; EStr "a"]) = Ok b.
Proof.
  split; [apply (can_fail_closed_total VNull (RStr "a")); auto|].
  split; [apply (can_fail_closed_total (VArr [VStr "a"]) RNull); auto|].
  split; [apply (can_fail_closed_total (VArr [VStr "a"]) (RStr "")); auto 6|].
  apply (can_fail_closed_total (VArr [VStr "a"])).
  right. right. now exists [VStr "a"].
Defined.

(** C4 as stated fails: "for any input" includes held scopes that are
    truthy and have no [indexOf]; [can({}, "a")] throws instead of
    returning. *)
Lemma can_never_raises_counterexample :
  can (VObj []) (RStr "a")
  = Throw (TypeError "scopes.indexOf is not a function")
  /\ ~ (exists b, can (VObj []) (RStr "a") = Ok b).
Proof. split; [reflexivity|intros [b H]; discriminate]. Qed.

(** Outside the declared parameter type the last part has no analogue:
    held scopes that are truthy but have no [indexOf] make the membership
    test throw. *)
Remark can_number_scopes_throws :
  can (VNum 5) (RStr "a") = Throw (TypeError "scopes.indexOf is not a function").
Proof. reflexivity. Qed.

(** C5.  Whatever the held scopes (the empty array included), an expression
    that is an array with an empty array among its elements evaluates to
    [true]: the empty AND-group is a vacuous conjunction. *)
Theorem can_empty_group_admits (h : list value) (elems : list req_elem)
  (Hin : In (EArr []) elems) :
  can (VArr h) (RArr elems) = Ok true.
Proof.
  rewrite can_array by reflexivity. f_equal.
  apply existsb_exists. exists (EArr []). split; [|reflexivity].
  unfold groups_of. simpl.
  destruct (forallb isString elems) eqn:Hall; [|exact Hin].
  rewrite forallb_forall in Hall. now specialize (Hall _ Hin).
Qed.

Lemma can_empty_group_admits_witness :
  In (EArr []) [EArr []] /\ can (VArr []) (RArr [EArr []]) = Ok true.
Proof.
  split; [now left|].
  apply (can_empty_group_admits [] [EArr []]). now left.
Defined.

(** C9.  [cannot(s, r)] is the negation of [can(s, r)]: whenever [can]
    returns [b], [cannot] returns [!b] (and an exception of [can] is the
    exception of [cannot]); on an array of held scopes both return, with
    opposite answers. *)
Theorem cannot_negates_can (scopes : value) (r : required_scopes) :
  match can scopes r with
  | Ok b => cannot scopes r = Ok (negb b)
  | Throw e => cannot scopes r = Throw e
  end
  /\ (forall h, exists b,
        can (VArr h) r = Ok b /\ cannot (VArr h) r = Ok (negb b)).
Proof.
  split.
  - unfold cannot. now destruct (can scopes r).
  - intros h.
    destruct (can_array_returns h r) as [b Hb].
    exists b. split; [exact Hb|]. unfold cannot. now rewrite Hb.
Qed.

(** *** Claims about the registry *)

(** C6.  [createGuard(...groups).permissions()] is the concatenation of the
    groups with every permission kept at its first occurrence only: no
    duplicates, exactly the permissions of the groups; two overlapping
    groups and no group at all give the lists the specification names. *)
Theorem createGuard_permissions (groups : list (list string)) :
  Guard.permissions (createGuard groups) tt = dedup_first (List.concat groups)
  /\ NoDup (Guard.permissions (createGuard groups) tt)
  /\ (forall x, In x (Guard.permissions (createGuard groups) tt) <->
               exists g, In g groups /\ In x g)
  /\ Guard.permissions (createGuard [["a"; "b"]; ["b"; "c"]]) tt
     = ["a"; "b"; "c"]
  /\ Guard.permissions (createGuard []) tt = [].
Proof.
  assert (Heq : Guard.permissions (createGuard groups) tt
                = dedup_first (List.concat groups))
    by apply new_Set_dedup_first.
  split; [exact Heq|]. rewrite Heq.
  split; [apply dedup_first_NoDup|].
  split; [|split; reflexivity].
  intros x. rewrite dedup_first_In, in_concat. reflexivity.
Qed.

(** C7.  The guard built from any groups evaluates exactly as the standalone
    functions do: its [can] is [can] and its [cannot] is [cannot], so two
    guards built from different groups agree on every pair of arguments. *)
Theorem guard_never_gates (groups : list (list string))
  (scopes : value) (r : required_scopes) :
  Guard.can (createGuard groups) scopes r = can scopes r
  /\ Guard.cannot (createGuard groups) scopes r = cannot scopes r
  /\ (forall groups',
        Guard.can (createGuard groups') scopes r
        = Guard.can (createGuard groups) scopes r
        /\ Guard.cannot (createGuard groups') scopes r
          = Guard.cannot (createGuard groups) scopes r).
Proof. repeat split. Qed.

(** C10.  [definePermissions] called with one array returns that array as
    it is, duplicates included, so a defined group need not be free of
    duplicates; they disappear only in [createGuard]. *)
Theorem definePermissions_keeps_array (elems : list value) :
  definePermissions [VArr elems] = elems
  /\ definePermissions [VArr [VStr "a"; VStr "b"; VStr "a"]]
     = [VStr "a"; VStr "b"; VStr "a"]
  /\ ~ NoDup (definePermissions [VArr [VStr "a"; VStr "b"; VStr "a"]])
  /\ Guard.permissions (createGuard [["a"; "b"; "a"]]) tt = ["a"; "b"].
Proof.
  split; [reflexivity|]. split; [reflexivity|]. split; [|reflexivity].
  simpl. intros H. inversion H as [|x l Hnotin _]; subst.
  apply Hnotin. right. now left.
Qed.

End CoreProofs.

(** ** The Express adapter: proofs *)

Module ExpressProofs.
Import Core Spec.
Import Express.

(** *** Splitting *)

Lemma split_by_cons is_sep s : exists piece pieces,
  split_by is_sep s = piece :: pieces.
Proof.
  induction s as [|c s [piece [pieces IH]]]; simpl.
  - now eexists _, _.
  - destruct (is_sep c); [now eexists _, _|]. rewrite IH. now eexists _, _.
Qed.

Lemma split_by_app is_sep c s1 s2 :
  is_sep c = true ->
  split_by is_sep (s1 ++ String c s2)
  = (split_by is_sep s1 ++ split_by is_sep s2)%list.
Proof.
  intros Hc. induction s1 as [|d s1 IH]; simpl.
  - now rewrite Hc.
  - rewrite IH. destruct (is_sep d); [reflexivity|].
    destruct (split_by_cons is_sep s1) as [piece [pieces ->]]. reflexivity.
Qed.

Lemma split_by_no_separator is_sep s :
  (forall c, In c (list_ascii_of_string s) -> is_sep c = false) ->
  split_by is_sep s = [s].
Proof.
  induction s as [|c s IH]; simpl; intros Hs; [reflexivity|].
  rewrite (Hs c (or_introl eq_refl)), IH; [reflexivity|].
  intros d Hd. apply Hs. now right.
Qed.

Lemma split_by_ext is_sep is_sep' s :
  (forall c, In c (list_ascii_of_string s) -> is_sep c = is_sep' c) ->
  split_by is_sep s = split_by is_sep' s.
Proof.
  induction s as [|c s IH]; simpl; intros Hs; [reflexivity|].
  rewrite (Hs c (or_introl eq_refl)), IH; [reflexivity|].
  intros d Hd. apply Hs. now right.
Qed.

Lemma filter_truthy_strings l :
  filter truthy (map VStr l) = map VStr (filter nonempty l).
Proof.
  induction l as [|s l IH]; simpl; [reflexivity|].
  unfold nonempty at 1. destruct (negb (s =? "")); simpl; now rewrite IH.
Qed.

(** *** [extractPermissions] *)

Lemma get_truthy user key :
  truthy user = true -> exists v, get user key = Ok v.
Proof.
  destruct user; simpl; try discriminate; intros _; try now eexists.
  - destruct (key =? "length"); [now eexists|].
    destruct (index_of_key key (String.length s)); now eexists.
  - destruct (key =? "length"); [now eexists|].
    destruct (index_of_key key (List.length elems)); now eexists.
Qed.

Lemma extract_of_field req requestProperty permissionsProperty user permissions :
  get req requestProperty = Ok user ->
  truthy user = true ->
  get user permissionsProperty = Ok permissions ->
  extractPermissions req requestProperty permissionsProperty
  = Ok (scopes_of_field permissions).
Proof.
  intros Hu Ht Hp. unfold extractPermissions.
  rewrite Hu. simpl. rewrite Ht. simpl. rewrite Hp. simpl.
  destruct permissions as [| |b|n|s|elems|props]; simpl; try reflexivity.
  - now destruct b.
  - now destruct (n =? 0)%Z.
  - destruct (s =? "") eqn:Hs; simpl.
    + apply String.eqb_eq in Hs. now subst.
    + unfold space_tokens. now rewrite filter_truthy_strings.
Qed.

Lemma extract_no_user req requestProperty permissionsProperty user :
  get req requestProperty = Ok user ->
  truthy user = false ->
  extractPermissions req requestProperty permissionsProperty = Ok (VArr []).
Proof.
  intros Hu Ht. unfold extractPermissions. rewrite Hu. simpl. now rewrite Ht.
Qed.

Lemma extract_returns_array props requestProperty permissionsProperty :
  exists arr,
    extractPermissions (VObj props) requestProperty permissionsProperty
    = Ok (VArr arr).
Proof.
  destruct (truthy (lookup requestProperty props)) eqn:Ht.
  - destruct (get_truthy _ permissionsProperty Ht) as [permissions Hp].
    rewrite (extract_of_field (VObj props) requestProperty permissionsProperty
               _ permissions eq_refl Ht Hp).
    unfold scopes_of_field. destruct permissions; now eexists.
  - exists [].
    now apply (extract_no_user (VObj props) requestProperty
                 permissionsProperty _ eq_refl).
Qed.

(** C3 (as amended).  On a request object, [extractPermissions] never
    throws and always yields an array: the empty array when the user object
    is absent (or falsy); otherwise, by the permissions field of the user,
    the field itself when it is an array, the tokens of a string field, and
    the empty array when the field is absent or of any other type.  The
    tokens of a string are its pieces between space characters (U+0020
    only; a tab or a line break separates nothing), empty pieces dropped:
    none for the empty string, the string itself when it is non-empty and
    has no space, and the tokens of both sides around a space.  On strings
    whose only white space is the space character this is splitting on
    white space. *)
Theorem extractPermissions_contract (props : list (string * value))
  (requestProperty permissionsProperty : string) :
  (exists arr,
     extractPermissions (VObj props) requestProperty permissionsProperty
     = Ok (VArr arr))
  /\ (truthy (lookup requestProperty props) = false ->
      extractPermissions (VObj props) requestProperty permissionsProperty
      = Ok (VArr []))
  /\ (forall fields, lookup requestProperty props = VObj fields ->
      extractPermissions (VObj props) requestProperty permissionsProperty
      = Ok match lookup permissionsProperty fields with
           | VStr s => VArr (map VStr (space_tokens s))
           | VArr elems => VArr elems
           | _ => VArr []
           end)
  /\ space_tokens "" = []
  /\ (forall s, s <> "" ->
      (forall c, In c (list_ascii_of_string s) -> c <> " "%char) ->
      space_tokens s = [s])
  /\ (forall s1 s2,
      space_tokens (s1 ++ " " ++ s2)
      = (space_tokens s1 ++ space_tokens s2)%list)
  /\ (forall s,
      (forall c, In c (list_ascii_of_string s) ->
                 is_whitespace c = true -> c = " "%char) ->
      space_tokens s = whitespace_tokens s)
  /\ space_tokens "a  b " = ["a"; "b"].
Proof.
  split; [apply extract_returns_array|].
  split; [now apply (extract_no_user (VObj props) requestProperty
                       permissionsProperty _ eq_refl)|].
  split.
  { intros fields Hu.
    apply (extract_of_field (VObj props) requestProperty permissionsProperty
             (VObj fields)); [simpl; now rewrite Hu|reflexivity|reflexivity]. }
  split; [reflexivity|].
  split.
  { intros s Hne Hs. unfold space_tokens, split.
    rewrite split_by_no_separator.
    - simpl. unfold nonempty.
      destruct (s =? "") eqn:E; [apply String.eqb_eq in E; contradiction|].
      reflexivity.
    - intros c Hc. apply Ascii.eqb_neq. intros <-. now apply (Hs " "%char). }
  split.
  { intros s1 s2. unfold space_tokens, split. simpl.
    rewrite split_by_app by reflexivity. apply filter_app. }
  split; [|reflexivity].
  intros s Hs. unfold space_tokens, whitespace_tokens, split. f_equal.
  apply split_by_ext. intros c Hc.
  destruct (Ascii.eqb_spec " " c) as [<-|Hne]; [reflexivity|].
  destruct (is_whitespace c) eqn:Hw; [|reflexivity].
  elim Hne. symmetry. now apply Hs.
Qed.

Lemma extractPermissions_contract_witness :
  lookup "user" [("user", VObj [("scope", VStr "a  b ")])]
  = VObj [("scope", VStr "a  b ")]
  /\ extractPermissions (VObj [("user", VObj [("scope", VStr "a  b ")])])
       "user" "scope"
     = Ok (VArr [VStr "a"; VStr "b"]).
Proof.
  split; [reflexivity|].
  exact (proj1 (proj2 (proj2
           (extractPermissions_contract
              [("user", VObj [("scope", VStr "a  b ")])] "user" "scope")))
           [("scope", VStr "a  b ")] eq_refl).
Defined.

(** C3 as stated fails: a tab is white space, yet a string field with a tab
    between two names is extracted as one token. *)
Lemma extract_whitespace_counterexample :
  is_whitespace "009" = true
  /\ whitespace_tokens tab_separated = ["a"; "b"]
  /\ extractPermissions
       (VObj [("user", VObj [("permissions", VStr tab_separated)])])
       "user" "permissions"
     = Ok (VArr [VStr tab_separated])
  /\ extractPermissions
       (VObj [("user", VObj [("permissions", VStr tab_separated)])])
       "user" "permissions"
     <> Ok (VArr (map VStr (whitespace_tokens tab_separated))).
Proof. repeat split. discriminate. Qed.

(** *** The middleware *)

Lemma run_check guardInstance options r req :
  run (ExpressGuard.check (createGuard guardInstance options) r) req
  = match extractPermissions req
            (or_default options requestProperty "user")
            (or_default options permissionsProperty "permissions") with
    | Throw e => (Ok tt, [NextWith e])
    | Ok userPermissions =>
        match Guard.can guardInstance userPermissions r with
        | Throw e => (Ok tt, [NextWith e])
        | Ok true => (Ok tt, [NextEmpty])
        | Ok false => (Ok tt, [NextWith (Denied insufficient)])
        end
    end.
Proof.
  unfold run, createGuard, withUnless, try_catch, m_bind, lift. simpl.
  destruct (extractPermissions _ _ _) as [userPermissions|e]; [|reflexivity].
  now destruct (Guard.can guardInstance userPermissions r) as [[|]|e].
Qed.

Lemma run_can guardInstance options r req :
  run (ExpressGuard.can (createGuard guardInstance options) r) req
  = run (ExpressGuard.check (createGuard guardInstance options) r) req.
Proof. reflexivity. Qed.

Lemma run_cannot guardInstance options r req :
  run (ExpressGuard.cannot (createGuard guardInstance options) r) req
  = match extractPermissions req
            (or_default options requestProperty "user")
            (or_default options permissionsProperty "permissions") with
    | Throw e => (Ok tt, [NextWith e])
    | Ok userPermissions =>
        match Guard.cannot guardInstance userPermissions r with
        | Throw e => (Ok tt, [NextWith e])
        | Ok true => (Ok tt, [NextEmpty])
        | Ok false => (Ok tt, [NextWith (Denied unwanted)])
        end
    end.
Proof.
  unfold run, createGuard, withUnless, try_catch, m_bind, lift. simpl.
  destruct (extractPermissions _ _ _) as [userPermissions|e]; [|reflexivity].
  now destruct (Guard.cannot guardInstance userPermissions r) as [[|]|e].
Qed.

(** C8.  Whatever the guard, the options, the expression and the request,
    each of the three handlers ends normally after exactly one call of
    [next]: nothing escapes as an uncaught exception.  When the guard's
    [can] answers [false], [check] and [can] call [next] with a
    [PermissionDeniedError] whose code is ["permission_denied"] and whose
    status is 403; when the guard's [cannot] answers [false], the [cannot]
    handler does the same with another message and the same code and
    status.  Over a guard of the core and a request object, the one call is
    either [next()] or [next] with such a denial. *)
Theorem denial_through_next (guardInstance : Guard.t)
  (options : option ExpressGuardOptions) (r : required_scopes) (req : value) :
  (forall middleware,
     In middleware [ExpressGuard.check (createGuard guardInstance options) r;
                    ExpressGuard.can (createGuard guardInstance options) r;
                    ExpressGuard.cannot (createGuard guardInstance options) r] ->
     exists arg, run middleware req = (Ok tt, [arg]))
  /\ (forall userPermissions,
      extractPermissions req (or_default options requestProperty "user")
        (or_default options permissionsProperty "permissions")
      = Ok userPermissions ->
      Guard.can guardInstance userPermissions r = Ok false ->
      run (ExpressGuard.check (createGuard guardInstance options) r) req
      = (Ok tt, [NextWith (Denied insufficient)])
      /\ run (ExpressGuard.can (createGuard guardInstance options) r) req
        = (Ok tt, [NextWith (Denied insufficient)]))
  /\ (forall userPermissions,
      extractPermissions req (or_default options requestProperty "user")
        (or_default options permissionsProperty "permissions")
      = Ok userPermissions ->
      Guard.cannot guardInstance userPermissions r = Ok false ->
      run (ExpressGuard.cannot (createGuard guardInstance options) r) req
      = (Ok tt, [NextWith (Denied unwanted)]))
  /\ (code insufficient = "permission_denied" /\ status insufficient = 403%Z)
  /\ (code unwanted = "permission_denied" /\ status unwanted = 403%Z)
  /\ message unwanted <> message insufficient
  /\ (forall groups props middleware,
      In middleware
        [ExpressGuard.check (createGuard (Core.createGuard groups) options) r;
         ExpressGuard.can (createGuard (Core.createGuard groups) options) r;
         ExpressGuard.cannot (createGuard (Core.createGuard groups) options) r] ->
      run middleware (VObj props) = (Ok tt, [NextEmpty])
      \/ exists e,
           run middleware (VObj props) = (Ok tt, [NextWith (Denied e)])
           /\ code e = "permission_denied" /\ status e = 403%Z).
Proof.
  split.
  { intros middleware [<-|[<-|[<-|[]]]];
      [rewrite run_check|rewrite run_can, run_check|rewrite run_cannot];
      destruct (extractPermissions _ _ _) as [userPermissions|e];
      try (now eexists).
    - destruct (Guard.can guardInstance userPermissions r) as [[|]|e];
        now eexists.
    - destruct (Guard.can guardInstance userPermissions r) as [[|]|e];
        now eexists.
    - destruct (Guard.cannot guardInstance userPermissions r) as [[|]|e];
        now eexists. }
  split.
  { intros userPermissions Hp Hcan.
    rewrite run_can, run_check, Hp, Hcan. now split. }
  split.
  { intros userPermissions Hp Hcannot.
    now rewrite run_cannot, Hp, Hcannot. }
  split; [now split|]. split; [now split|]. split; [discriminate|].
  intros groups props middleware Hin.
  destruct (extract_returns_array props
              (or_default options requestProperty "user")
              (or_default options permissionsProperty "permissions"))
    as [arr Harr].
  destruct (CoreProofs.can_array_returns arr r) as [b Hb].
  destruct Hin as [<-|[<-|[<-|[]]]];
    [rewrite run_check|rewrite run_can, run_check|rewrite run_cannot];
    rewrite Harr; simpl; unfold cannot; rewrite Hb; simpl;
    destruct b; simpl; auto; right; eexists; now repeat split.
Qed.

Lemma denial_through_next_witness :
  extractPermissions (VObj [("user", VObj [("permissions", VArr [VStr "a"])])])
    (or_default None requestProperty "user")
    (or_default None permissionsProperty "permissions")
  = Ok (VArr [VStr "a"])
  /\ Guard.can (Core.createGuard [["a"; "b"]]) (VArr [VStr "a"]) (RStr "b")
     = Ok false
  /\ run (ExpressGuard.check
            (createGuard (Core.createGuard [["a"; "b"]]) None) (RStr "b"))
         (VObj [("user", VObj [("permissions", VArr [VStr "a"])])])
     = (Ok tt, [NextWith (Denied insufficient)]).
Proof.
  split; [reflexivity|]. split; [reflexivity|].
  apply (denial_through_next (Core.createGuard [["a"; "b"]]) None (RStr "b")
           (VObj [("user", VObj [("permissions", VArr [VStr "a"])])])
           ) with (userPermissions := VArr [VStr "a"]); reflexivity.
Defined.

End ExpressProofs.

(** ** The evaluator: further properties *)

Module CoreMore.
Import Core Spec SpecMore.
Import CoreProofs.

Lemma can_true_truthy scopes r :
  can scopes r = Ok true -> truthy_required r = true.
Proof.
  intros H. destruct (truthy_required r) eqn:Hr; [reflexivity|].
  rewrite can_falsy in H by now right. discriminate.
Qed.

Lemma groups_of_cons r :
  truthy_required r = true -> exists g gs, groups_of r = g :: gs.
Proof.
  unfold groups_of. destruct r as [| |s|elems]; simpl; try discriminate.
  - now eexists _, _.
  - intros _. destruct (forallb isString elems) eqn:Hall; [now eexists _, _|].
    destruct elems; [discriminate|now eexists _, _].
Qed.

Lemma forallb_held_all h l :
  forallb (held h) l = true <-> forall p, In p l -> In (VStr p) h.
Proof.
  rewrite forallb_forall. split; intros H p Hp; apply held_In; now apply H.
Qed.

(** X1.  The two ways of calling [definePermissions] define the same group:
    called with the permissions as separate arguments it returns them in
    order, which is what it returns for the array of them; [defineRole] does
    the same. *)
Theorem definePermissions_variadic_agrees (l : list string) :
  definePermissions (map VStr l) = map VStr l
  /\ definePermissions (map VStr l) = definePermissions [VArr (map VStr l)]
  /\ defineRole (map VStr l) = defineRole [VArr (map VStr l)].
Proof. destruct l as [|a [|b l]]; repeat split. Qed.

(** X2.  A non-empty permission required by itself is granted exactly when
    it is among the held scopes. *)
Theorem can_single_iff_held (h : list value) (p : string) (Hp : p <> "") :
  (can (VArr h) (RStr p) = Ok true <-> In (VStr p) h)
  /\ (can (VArr h) (RStr p) = Ok false <-> ~ In (VStr p) h).
Proof.
  rewrite can_single by exact Hp. rewrite <- held_In.
  destruct (held h p); split; split; congruence.
Qed.

Lemma can_single_iff_held_witness :
  "user:write" <> ""
  /\ (can (VArr [VStr "user:write"]) (RStr "user:write") = Ok true <->
      In (VStr "user:write") [VStr "user:write"]).
Proof.
  split; [discriminate|].
  apply (can_single_iff_held [VStr "user:write"] "user:write"). discriminate.
Defined.

(** X3.  The empty string is treated differently by shape: required by
    itself it is refused whatever is held, required inside a list it is
    granted exactly when the held scopes contain the empty string. *)
Theorem can_empty_string_by_shape (h : list value) :
  can (VArr h) (RStr "") = Ok false
  /\ (can (VArr h) (RArr [EStr ""]) = Ok true <-> In (VStr "") h)
  /\ (can (VArr h) (RArr [EArr [""]]) = Ok true <-> In (VStr "") h).
Proof.
  split; [reflexivity|].
  assert (Hb : forall b, Ok (b && true) = Ok true <-> b = true).
  { intros b. rewrite andb_true_r. split; [now intros [= ->]|now intros ->]. }
  split.
  - change (RArr [EStr ""]) with (RArr (map EStr [""])).
    rewrite (can_flat h [""]). simpl. rewrite Hb. apply held_In.
  - change (RArr [EArr [""]]) with (RArr (map EArr [[""]])).
    rewrite (can_nested h [[""]]) by discriminate. simpl.
    rewrite orb_false_r, Hb. apply held_In.
Qed.

(** X4.  Holding more never takes a permission away: if every held scope of
    [h] is also in [h'], whatever [can] grants to [h] it grants to [h'], and
    whatever [cannot] reports for [h'] it reports for [h]. *)
Theorem can_monotone (h h' : list value) (r : required_scopes)
  (Hsub : forall v, In v h -> In v h') :
  (can (VArr h) r = Ok true -> can (VArr h') r = Ok true)
  /\ (cannot (VArr h') r = Ok true -> cannot (VArr h) r = Ok true).
Proof.
  assert (Hmono : can (VArr h) r = Ok true -> can (VArr h') r = Ok true).
  { intros H. assert (Hr := can_true_truthy _ _ H).
    rewrite can_array in * by exact Hr.
    injection H as H. f_equal. apply existsb_satisfied in H.
    apply existsb_satisfied. destruct H as [g [Hin Hg]].
    exists g. split; [exact Hin|]. intros p Hp. apply Hsub. now apply Hg. }
  split; [exact Hmono|].
  unfold cannot. destruct (can_array_returns h r) as [b Hb].
  destruct (can_array_returns h' r) as [b' Hb']. rewrite Hb, Hb'. simpl.
  destruct b; [|reflexivity].
  rewrite (Hmono Hb) in Hb'. injection Hb' as <-. discriminate.
Qed.

Lemma can_monotone_witness :
  (forall v, In v [VStr "a"] -> In v [VStr "b"; VStr "a"])
  /\ can (VArr [VStr "a"]) (RArr [EArr ["a"]; EArr ["c"]]) = Ok true
  /\ can (VArr [VStr "b"; VStr "a"]) (RArr [EArr ["a"]; EArr ["c"]]) = Ok true.
Proof.
  assert (Hsub : forall v, In v [VStr "a"] -> In v [VStr "b"; VStr "a"])
    by (intros v [<-|[]]; right; now left).
  split; [exact Hsub|]. split; [reflexivity|].
  apply (can_monotone [VStr "a"] [VStr "b"; VStr "a"]
           (RArr [EArr ["a"]; EArr ["c"]]) Hsub).
  reflexivity.
Defined.

(** X5.  Requiring two lists together is requiring each of them: the answer
    for the concatenation of two flat lists is the conjunction of the
    answers for the two lists. *)
Theorem can_flat_append (h : list value) (l1 l2 : list string) :
  can (VArr h) (RArr (map EStr (l1 ++ l2)))
  = (b1 <- can (VArr h) (RArr (map EStr l1)) ;;
     b2 <- can (VArr h) (RArr (map EStr l2)) ;;
     Ok (b1 && b2)).
Proof. rewrite !can_flat. simpl. now rewrite forallb_app. Qed.

(** X6.  Offering the groups of two non-empty lists of groups as
    alternatives is offering either list: the answer for the concatenation
    is the disjunction of the two answers.  (Both lists must be non-empty:
    an empty array is read as one empty group, not as no alternative.) *)
Theorem can_nested_append (h : list value) (ll1 ll2 : list (list string))
  (H1 : ll1 <> []) (H2 : ll2 <> []) :
  can (VArr h) (RArr (map EArr (ll1 ++ ll2)))
  = (b1 <- can (VArr h) (RArr (map EArr ll1)) ;;
     b2 <- can (VArr h) (RArr (map EArr ll2)) ;;
     Ok (b1 || b2)).
Proof.
  rewrite !can_nested; try assumption.
  - simpl. now rewrite existsb_app.
  - destruct ll1; [congruence|discriminate].
Qed.

Lemma can_nested_append_witness :
  [["a"]] <> [] /\ [["b"; "c"]] <> []
  /\ can (VArr [VStr "b"; VStr "c"]) (RArr (map EArr ([["a"]] ++ [["b"; "c"]])))
     = (b1 <- can (VArr [VStr "b"; VStr "c"]) (RArr (map EArr [["a"]])) ;;
        b2 <- can (VArr [VStr "b"; VStr "c"]) (RArr (map EArr [["b"; "c"]])) ;;
        Ok (b1 || b2)).
Proof.
  split; [discriminate|]. split; [discriminate|].
  apply (can_nested_append [VStr "b"; VStr "c"] [["a"]] [["b"; "c"]]);
    discriminate.
Defined.

(** X7.  The shapes agree where they overlap: a flat list is evaluated as
    the list of lists with that one group, and a non-empty string as the
    list with that one permission. *)
Theorem can_shapes_agree (h : list value) (l : list string) (p : string)
  (Hp : p <> "") :
  can (VArr h) (RArr (map EStr l)) = can (VArr h) (RArr [EArr l])
  /\ can (VArr h) (RStr p) = can (VArr h) (RArr [EStr p])
  /\ can (VArr h) (RStr p) = can (VArr h) (RArr [EArr [p]]).
Proof.
  split.
  - rewrite can_flat.
    change (RArr [EArr l]) with (RArr (map EArr [l])).
    rewrite can_nested by discriminate. simpl. now rewrite orb_false_r.
  - rewrite can_single by exact Hp.
    change (RArr [EStr p]) with (RArr (map EStr [p])).
    change (RArr [EArr [p]]) with (RArr (map EArr [[p]])).
    rewrite can_flat, can_nested by discriminate. simpl.
    now rewrite andb_true_r, orb_false_r.
Qed.

Lemma can_shapes_agree_witness :
  "a" <> ""
  /\ can (VArr [VStr "a"]) (RStr "a") = can (VArr [VStr "a"]) (RArr [EStr "a"]).
Proof.
  split; [discriminate|].
  apply (can_shapes_agree [VStr "a"] [] "a"). discriminate.
Defined.

(** X8.  A caller that holds nothing is granted an expression only through
    an empty AND-group: a single permission is always refused, a flat list
    is granted exactly when it is empty, and a list of lists exactly when it
    is empty or has the empty list among its groups. *)
Theorem can_nothing_held :
  (forall p, can (VArr []) (RStr p) = Ok false)
  /\ (forall l, can (VArr []) (RArr (map EStr l)) = Ok true <-> l = [])
  /\ (forall ll, can (VArr []) (RArr (map EArr ll)) = Ok true <->
                 ll = [] \/ In [] ll).
Proof.
  assert (Hnone : forall g, forallb (held []) g = true <-> g = []).
  { intros [|p g]; simpl; split; congruence. }
  assert (Hbool : forall b, Ok b = Ok true <-> b = true)
    by (intros b; split; [now intros [= ->]|now intros ->]).
  split; [|split].
  - intros p. destruct (string_dec p "") as [->|Hp]; [reflexivity|].
    now rewrite can_single.
  - intros l. rewrite can_flat, Hbool. apply Hnone.
  - intros [|g ll]; [split; [now left|reflexivity]|].
    rewrite can_nested, Hbool, existsb_exists by discriminate. split.
    + intros [g0 [Hin Hg0]]. apply Hnone in Hg0. subst g0. now right.
    + intros [H|H]; [discriminate|]. exists []. now split.
Qed.

(** X9.  A caller that holds every permission of the registry passes every
    check made of registered permissions: if all permissions an expression
    mentions occur in the groups the guard was created from, [can] grants
    it to the holder of [permissions()]. *)
Theorem can_registry_holder (groups : list (list string))
  (r : required_scopes) (Hr : truthy_required r = true)
  (Hreg : forall g p, In g (groups_of r) -> In p (group_members g) ->
                      exists grp, In grp groups /\ In p grp) :
  can (VArr (map VStr (Guard.permissions (createGuard groups) tt))) r
  = Ok true.
Proof.
  rewrite can_array by exact Hr. f_equal. apply existsb_satisfied.
  destruct (groups_of_cons r Hr) as [g [gs Hg]].
  exists g. split; [rewrite Hg; now left|].
  intros p Hp. apply in_map. simpl. unfold flat.
  rewrite new_Set_dedup_first. apply dedup_first_In. apply in_concat.
  apply (Hreg g p); [rewrite Hg; now left|exact Hp].
Qed.

Lemma can_registry_holder_witness :
  truthy_required (RArr [EStr "a"; EStr "c"]) = true
  /\ can (VArr (map VStr (Guard.permissions
                            (createGuard [["a"; "b"]; ["b"; "c"]]) tt)))
         (RArr [EStr "a"; EStr "c"])
     = Ok true.
Proof.
  split; [reflexivity|].
  apply (can_registry_holder [["a"; "b"]; ["b"; "c"]]
           (RArr [EStr "a"; EStr "c"])); [reflexivity|].
  intros g p [<-|[]] [<-|[<-|[]]].
  - exists ["a"; "b"]. split; [now left|now left].
  - exists ["b"; "c"]. split; [right; now left|right; now left].
Defined.

(** *** The registry *)

Lemma dedup_first_NoDup_id l : NoDup l -> dedup_first l = l.
Proof.
  induction 1 as [|x l Hx Hl IH]; simpl; [reflexivity|].
  rewrite IH. f_equal. now apply notin_remove.
Qed.

Lemma filter_fresh_nil l : filter (fresh []) l = l.
Proof. induction l as [|y l IH]; simpl; [reflexivity|now rewrite IH]. Qed.

Lemma new_Set_app l1 l2 :
  new_Set (l1 ++ l2) = (new_Set l1 ++ filter (fresh (new_Set l1)) (new_Set l2))%list.
Proof.
  unfold new_Set at 1. rewrite fold_left_app, fold_Set_add.
  now rewrite <- new_Set_dedup_first.
Qed.

(** X10.  The registry only grows at its end: creating the guard from more
    groups keeps the permissions of the first groups where they were and
    appends, in their own first-seen order, those permissions of the
    further groups that were not known yet. *)
Theorem createGuard_appends (groups more : list (list string)) :
  Guard.permissions (createGuard (groups ++ more)) tt
  = (Guard.permissions (createGuard groups) tt ++
     filter (fun p => negb (Set_has (Guard.permissions (createGuard groups) tt) p))
       (Guard.permissions (createGuard more) tt))%list.
Proof. simpl. unfold flat. rewrite concat_app. apply new_Set_app. Qed.

(** X11.  Deduplication changes nothing that is already duplicate-free, so
    the registry of a registry is the registry: when no permission occurs
    twice across the groups, [permissions()] is their concatenation, and
    creating a guard from the permissions of a guard gives the same
    permissions back. *)
Theorem createGuard_idempotent (groups : list (list string)) :
  (NoDup (List.concat groups) ->
   Guard.permissions (createGuard groups) tt = List.concat groups)
  /\ Guard.permissions
       (createGuard [Guard.permissions (createGuard groups) tt]) tt
     = Guard.permissions (createGuard groups) tt.
Proof.
  simpl. unfold flat. rewrite !new_Set_dedup_first. split.
  - apply dedup_first_NoDup_id.
  - simpl. rewrite app_nil_r. apply dedup_first_NoDup_id.
    apply dedup_first_NoDup.
Qed.

Lemma createGuard_idempotent_witness :
  NoDup (List.concat [["a"; "b"]; ["c"]])
  /\ Guard.permissions (createGuard [["a"; "b"]; ["c"]]) tt
     = List.concat [["a"; "b"]; ["c"]].
Proof.
  assert (Hnd : NoDup (List.concat [["a"; "b"]; ["c"]])).
  { simpl. repeat constructor; simpl; intuition discriminate. }
  split; [exact Hnd|].
  exact (proj1 (createGuard_idempotent [["a"; "b"]; ["c"]]) Hnd).
Defined.

(** *** Held scopes outside the declared type *)

Lemma prefix_iff p s : prefix p s = true <-> exists after, s = p ++ after.
Proof.
  revert s; induction p as [|a p IH]; intros s.
  - split; [intros _; now exists s|intros _; now destruct s].
  - destruct s as [|b s]; simpl.
    + split; [discriminate|intros [after H]; discriminate].
    + destruct (Ascii.ascii_dec a b) as [->|Hne].
      * rewrite IH. split; intros [after H]; exists after; congruence.
      * split; [discriminate|intros [after H]; congruence].
Qed.

Lemma index_found_iff p s :
  (exists i, String.index 0 p s = Some i) <-> occurs_in p s.
Proof.
  unfold occurs_in. induction s as [|c s IH].
  - destruct p as [|a p]; simpl.
    + split; [intros _; now exists "", ""|intros _; now exists 0%nat].
    + split; [intros [i H]; discriminate|].
      intros [[|b before] [after H]]; simpl in H; discriminate.
  - change (String.index 0 p (String c s))
      with (if prefix p (String c s) then Some 0%nat
            else match String.index 0 p s with
                 | Some n => Some (S n)
                 | None => None
                 end).
    destruct (prefix p (String c s)) eqn:Hpre.
    + split; [intros _|intros _; now exists 0%nat].
      apply prefix_iff in Hpre. destruct Hpre as [after H].
      now exists "", after.
    + split.
      * intros [i H]. destruct (String.index 0 p s) as [j|] eqn:Hj;
          [|discriminate].
        destruct (proj1 IH (ex_intro _ j eq_refl)) as [before [after ->]].
        now exists (String c before), after.
      * intros [[|b before] [after H]]; simpl in H.
        -- assert (Hp : prefix p (String c s) = true)
             by (apply prefix_iff; now exists after).
           congruence.
        -- injection H as -> ->.
           destruct (proj2 IH (ex_intro _ before (ex_intro _ after eq_refl)))
             as [j ->].
           now eexists.
Qed.

Lemma can_string_scopes s r :
  exists b, can (VStr s) r = Ok b.
Proof.
  unfold can.
  destruct (negb (truthy_required r) || negb (truthy (VStr s))) eqn:Hg;
    [now eexists|].
  apply orb_false_elim in Hg. destruct Hg as [Hr _].
  apply negb_false_iff in Hr. rewrite (normalize_groups r Hr). simpl.
  eexists.
  apply (array_some_pure
           (fun g => forallb
              (fun p => match String.index 0 p s with
                        | Some _ => true
                        | None => false
                        end) (group_members g))).
  intros g _. apply every_pure. intros p _. simpl.
  destruct (String.index 0 p s) as [i|]; simpl; [|reflexivity].
  destruct (Z.eqb_spec (Z.of_nat i) (-1)); [lia|reflexivity].
Qed.

(** X12.  Held scopes passed as one string are searched, not split: for a
    non-empty string [s] in the place of the held scopes, a non-empty
    permission is granted exactly when it occurs somewhere inside [s], so a
    part of a scope name is granted too. *)
Theorem can_string_scopes_substring (s p : string)
  (Hs : s <> "") (Hp : p <> "") :
  (can (VStr s) (RStr p) = Ok true <-> occurs_in p s)
  /\ (can (VStr s) (RStr p) = Ok false <-> ~ occurs_in p s).
Proof.
  assert (Hcan : can (VStr s) (RStr p)
                 = Ok (match String.index 0 p s with
                       | Some _ => true
                       | None => false
                       end)).
  { unfold can. simpl.
    apply String.eqb_neq in Hs, Hp. rewrite Hs, Hp. simpl.
    destruct (String.index 0 p s) as [i|]; simpl; [|reflexivity].
    destruct (Z.eqb_spec (Z.of_nat i) (-1)); [lia|reflexivity]. }
  rewrite Hcan, <- index_found_iff.
  destruct (String.index 0 p s) as [i|]; split; split; intros H.
  - now eexists.
  - reflexivity.
  - discriminate.
  - elim H. now eexists.
  - discriminate.
  - destruct H as [j Hj]. discriminate.
  - intros [j Hj]. discriminate.
  - reflexivity.
Qed.

Lemma can_string_scopes_substring_witness :
  "user:read posts:read" <> "" /\ "user" <> ""
  /\ (can (VStr "user:read posts:read") (RStr "user") = Ok true <->
      occurs_in "user" "user:read posts:read").
Proof.
  split; [discriminate|]. split; [discriminate|].
  apply (can_string_scopes_substring "user:read posts:read" "user");
    discriminate.
Defined.

End CoreMore.

(** ** The Express adapter: further properties *)

Module ExpressMore.
Import Core Spec SpecMore.
Import Express.
Import CoreProofs ExpressProofs.

(** *** Tokens *)

Lemma space_tokens_single s :
  s <> "" -> space_free s -> space_tokens s = [s].
Proof.
  intros Hne Hs. unfold space_tokens, split.
  rewrite split_by_no_separator.
  - simpl. unfold nonempty.
    destruct (s =? "") eqn:E; [apply String.eqb_eq in E; contradiction|].
    reflexivity.
  - intros c Hc. apply Ascii.eqb_neq. intros <-. now apply (Hs " "%char).
Qed.

Lemma space_tokens_app s1 s2 :
  space_tokens (s1 ++ " " ++ s2) = (space_tokens s1 ++ space_tokens s2)%list.
Proof.
  unfold space_tokens, split. simpl.
  rewrite split_by_app by reflexivity. apply filter_app.
Qed.

Lemma split_by_piece_free is_sep s piece :
  In piece (split_by is_sep s) ->
  forall c, In c (list_ascii_of_string piece) -> is_sep c = false.
Proof.
  revert piece; induction s as [|d s IH]; simpl; intros piece Hin c Hc.
  - destruct Hin as [<-|[]]. destruct Hc.
  - destruct (is_sep d) eqn:Hd.
    + destruct Hin as [<-|Hin]; [destruct Hc|now apply (IH piece)].
    + destruct (split_by_cons is_sep s) as [t [ts Hts]]. rewrite Hts in *.
      destruct Hin as [<-|Hin].
      * destruct Hc as [<-|Hc]; [exact Hd|].
        apply (IH t); [now left|exact Hc].
      * apply (IH piece); [now right|exact Hc].
Qed.

(** X14.  Joining scope names with single spaces and extracting the tokens
    of the result gives the names back, provided each name is non-empty and
    has no space; and every token extracted from any string is non-empty
    and has no space. *)
Theorem space_tokens_round_trip (l : list string)
  (Hl : forall t, In t l -> t <> "" /\ space_free t) :
  space_tokens (String.concat " " l) = l
  /\ (forall s t, In t (space_tokens s) -> t <> "" /\ space_free t).
Proof.
  split.
  - induction l as [|x l IH]; [reflexivity|].
    destruct (Hl x (or_introl eq_refl)) as [Hx Hfree].
    destruct l as [|y l].
    + simpl. now apply space_tokens_single.
    + change (String.concat " " (x :: y :: l))
        with (x ++ " " ++ String.concat " " (y :: l)).
      rewrite space_tokens_app, space_tokens_single by assumption.
      rewrite IH; [reflexivity|]. intros t Ht. apply Hl. now right.
  - intros s t Ht. unfold space_tokens in Ht. apply filter_In in Ht.
    destruct Ht as [Hin Hne]. split.
    + intros ->. discriminate.
    + intros c Hc ->.
      assert (H := split_by_piece_free _ _ _ Hin _ Hc). discriminate.
Qed.

Lemma space_tokens_round_trip_witness :
  (forall t, In t ["user:read"; "posts:write"] -> t <> "" /\ space_free t)
  /\ space_tokens (String.concat " " ["user:read"; "posts:write"])
     = ["user:read"; "posts:write"].
Proof.
  assert (Hl : forall t, In t ["user:read"; "posts:write"] ->
                         t <> "" /\ space_free t).
  { intros t [<-|[<-|[]]]; (split; [discriminate|]);
      intros c Hc; simpl in Hc;
      repeat (destruct Hc as [<-|Hc]; [discriminate|]); destruct Hc. }
  split; [exact Hl|].
  exact (proj1 (space_tokens_round_trip ["user:read"; "posts:write"] Hl)).
Defined.

(** *** Handlers *)

Lemma run_handler guardInstance options w r req :
  run (handler (createGuard guardInstance options) w r) req
  = match extractPermissions req
            (or_default options requestProperty "user")
            (or_default options permissionsProperty "permissions") with
    | Throw e => (Ok tt, [NextWith e])
    | Ok userPermissions =>
        match w with
        | ByCannot =>
            match Guard.cannot guardInstance userPermissions r with
            | Throw e => (Ok tt, [NextWith e])
            | Ok true => (Ok tt, [NextEmpty])
            | Ok false => (Ok tt, [NextWith (Denied unwanted)])
            end
        | _ =>
            match Guard.can guardInstance userPermissions r with
            | Throw e => (Ok tt, [NextWith e])
            | Ok true => (Ok tt, [NextEmpty])
            | Ok false => (Ok tt, [NextWith (Denied insufficient)])
            end
        end
    end.
Proof.
  destruct w; unfold handler;
    [rewrite run_check|rewrite run_can, run_check|rewrite run_cannot];
    now destruct (extractPermissions _ _ _).
Qed.

Lemma can_nothing_false r :
  (forall g, In g (groups_of r) -> group_members g <> []) ->
  can (VArr []) r = Ok false.
Proof.
  intros Hg. destruct (truthy_required r) eqn:Hr;
    [|apply can_falsy; now right].
  rewrite can_array by exact Hr. f_equal.
  induction (groups_of r) as [|g gs IH]; simpl; [reflexivity|].
  rewrite IH by (intros g' Hin; apply Hg; now right).
  destruct (group_members g) as [|p ps] eqn:Hm;
    [now elim (Hg g (or_introl eq_refl))|reflexivity].
Qed.

(** X15.  [can] is [check] under another name and [cannot] is its mirror
    image: over a guard of the core and a request object, [can] does what
    [check] does, and of [check] and [cannot] exactly one calls [next()]
    while the other calls [next] with its denial. *)
Theorem check_cannot_mirror (groups : list (list string))
  (options : option ExpressGuardOptions) (r : required_scopes)
  (props : list (string * value)) :
  run (ExpressGuard.can (createGuard (Core.createGuard groups) options) r)
      (VObj props)
  = run (ExpressGuard.check (createGuard (Core.createGuard groups) options) r)
      (VObj props)
  /\ ((run (ExpressGuard.check
              (createGuard (Core.createGuard groups) options) r) (VObj props)
       = (Ok tt, [NextEmpty])
       /\ run (ExpressGuard.cannot
                 (createGuard (Core.createGuard groups) options) r) (VObj props)
          = (Ok tt, [NextWith (Denied unwanted)]))
      \/ (run (ExpressGuard.check
                 (createGuard (Core.createGuard groups) options) r) (VObj props)
          = (Ok tt, [NextWith (Denied insufficient)])
          /\ run (ExpressGuard.cannot
                    (createGuard (Core.createGuard groups) options) r)
                 (VObj props)
             = (Ok tt, [NextEmpty]))).
Proof.
  split; [apply run_can|].
  rewrite run_check, run_cannot.
  destruct (extract_returns_array props
              (or_default options requestProperty "user")
              (or_default options permissionsProperty "permissions"))
    as [arr ->].
  simpl. unfold cannot. destruct (can_array_returns arr r) as [b ->].
  destruct b; simpl; [left|right]; now split.
Qed.

(** X16.  Over a guard of the core, whether [check] lets a request through
    is decided by the extracted scopes alone: for an expression of any of
    the three shapes it calls [next()] exactly when the expression is not
    the empty string and one of its AND-groups has every permission among
    the extracted scopes. *)
Theorem check_admits_iff (groups : list (list string))
  (options : option ExpressGuardOptions) (e : expression)
  (req : value) (arr : list value)
  (Hshape : e <> AnyOf [])
  (Hext : extractPermissions req
            (or_default options requestProperty "user")
            (or_default options permissionsProperty "permissions")
          = Ok (VArr arr)) :
  run (ExpressGuard.check (createGuard (Core.createGuard groups) options)
         (to_required e)) req
  = (Ok tt, [NextEmpty])
  <-> e <> Single "" /\ granted arr e.
Proof.
  rewrite run_check, Hext. simpl.
  destruct (expression_eq_dec e (Single "")) as [->|Htruthy].
  - rewrite can_falsy by (now right).
    split; [discriminate|intros [H _]; now elim H].
  - rewrite can_expression by assumption. rewrite <- existsb_granted.
    destruct (existsb _ _); split; try discriminate; try tauto.
    intros [_ H]. discriminate.
Qed.

Lemma check_admits_iff_witness :
  AllOf ["a"; "b"] <> AnyOf []
  /\ extractPermissions (VObj [("user", VObj [("scope", VStr "a b")])])
       (or_default (Some (mkOptions None (Some "scope"))) requestProperty
          "user")
       (or_default (Some (mkOptions None (Some "scope"))) permissionsProperty
          "permissions")
     = Ok (VArr [VStr "a"; VStr "b"])
  /\ (run (ExpressGuard.check
             (createGuard (Core.createGuard [])
                (Some (mkOptions None (Some "scope"))))
             (to_required (AllOf ["a"; "b"])))
          (VObj [("user", VObj [("scope", VStr "a b")])])
      = (Ok tt, [NextEmpty])
      <-> AllOf ["a"; "b"] <> Single "" /\
          granted [VStr "a"; VStr "b"] (AllOf ["a"; "b"])).
Proof.
  split; [discriminate|]. split; [reflexivity|].
  apply (check_admits_iff [] (Some (mkOptions None (Some "scope")))
           (AllOf ["a"; "b"])
           (VObj [("user", VObj [("scope", VStr "a b")])])
           [VStr "a"; VStr "b"]); [discriminate|reflexivity].
Defined.

(** X17.  A request without a user (the request property absent, [null] or
    otherwise falsy) is refused by [check] and [can] and let through by
    [cannot], for every expression whose AND-groups all have a member. *)
Theorem no_user_is_denied (groups : list (list string))
  (options : option ExpressGuardOptions) (r : required_scopes)
  (props : list (string * value))
  (Huser : truthy (lookup (or_default options requestProperty "user") props)
           = false)
  (Hgroups : forall g, In g (groups_of r) -> group_members g <> []) :
  run (ExpressGuard.check (createGuard (Core.createGuard groups) options) r)
      (VObj props)
  = (Ok tt, [NextWith (Denied insufficient)])
  /\ run (ExpressGuard.can (createGuard (Core.createGuard groups) options) r)
         (VObj props)
     = (Ok tt, [NextWith (Denied insufficient)])
  /\ run (ExpressGuard.cannot (createGuard (Core.createGuard groups) options) r)
         (VObj props)
     = (Ok tt, [NextEmpty]).
Proof.
  rewrite run_can, run_check, run_cannot.
  rewrite (extract_no_user (VObj props) _ _ _ eq_refl Huser).
  simpl. unfold cannot. rewrite (can_nothing_false r Hgroups). simpl.
  now repeat split.
Qed.

Lemma no_user_is_denied_witness :
  truthy (lookup (or_default None requestProperty "user") [("body", VNull)])
  = false
  /\ (forall g, In g (groups_of (RStr "admin")) -> group_members g <> [])
  /\ run (ExpressGuard.check (createGuard (Core.createGuard []) None)
            (RStr "admin"))
         (VObj [("body", VNull)])
     = (Ok tt, [NextWith (Denied insufficient)]).
Proof.
  assert (Hg : forall g, In g (groups_of (RStr "admin")) ->
                         group_members g <> [])
    by (intros g [<-|[]]; discriminate).
  split; [reflexivity|]. split; [exact Hg|].
  exact (proj1 (no_user_is_denied [] None (RStr "admin") [("body", VNull)]
                  eq_refl Hg)).
Defined.

(** X18.  The options fall back to ["user"] and ["permissions"]: an adapter
    created with options whose property names are left out or empty is the
    adapter created without options. *)
Theorem options_default (guardInstance : Guard.t)
  (options : option ExpressGuardOptions)
  (Hreq : forall o, options = Some o ->
            requestProperty o = None \/ requestProperty o = Some ""
            \/ requestProperty o = Some "user")
  (Hperm : forall o, options = Some o ->
            permissionsProperty o = None \/ permissionsProperty o = Some ""
            \/ permissionsProperty o = Some "permissions") :
  createGuard guardInstance options = createGuard guardInstance None.
Proof.
  assert (H1 : or_default options requestProperty "user" = "user").
  { destruct options as [o|]; [|reflexivity]. simpl.
    destruct (Hreq o eq_refl) as [->|[->| ->]]; reflexivity. }
  assert (H2 : or_default options permissionsProperty "permissions"
               = "permissions").
  { destruct options as [o|]; [|reflexivity]. simpl.
    destruct (Hperm o eq_refl) as [->|[->| ->]]; reflexivity. }
  unfold createGuard. rewrite H1, H2. reflexivity.
Qed.

Lemma options_default_witness :
  createGuard (Core.createGuard []) (Some (mkOptions (Some "") None))
  = createGuard (Core.createGuard []) None.
Proof.
  apply (options_default (Core.createGuard [])
           (Some (mkOptions (Some "") None))).
  - intros o [= <-]. right. now left.
  - intros o [= <-]. now left.
Defined.

(** X19.  What the guard throws reaches [next] as it is: if the guard's
    [can] (for [check] and [can]) or [cannot] (for [cannot]) throws on the
    extracted scopes, the handler calls [next] once with that very
    exception and makes no denial of it. *)
Theorem guard_exception_forwarded (guardInstance : Guard.t)
  (options : option ExpressGuardOptions) (r : required_scopes)
  (req userPermissions : value) (e : exn)
  (Hext : extractPermissions req
            (or_default options requestProperty "user")
            (or_default options permissionsProperty "permissions")
          = Ok userPermissions) :
  (Guard.can guardInstance userPermissions r = Throw e ->
   run (ExpressGuard.check (createGuard guardInstance options) r) req
   = (Ok tt, [NextWith e])
   /\ run (ExpressGuard.can (createGuard guardInstance options) r) req
      = (Ok tt, [NextWith e]))
  /\ (Guard.cannot guardInstance userPermissions r = Throw e ->
      run (ExpressGuard.cannot (createGuard guardInstance options) r) req
      = (Ok tt, [NextWith e])).
Proof.
  split.
  - intros H. now rewrite run_can, run_check, Hext, H.
  - intros H. now rewrite run_cannot, Hext, H.
Qed.

Lemma guard_exception_forwarded_witness :
  extractPermissions (VObj [("user", VObj [("permissions", VArr [])])])
    (or_default None requestProperty "user")
    (or_default None permissionsProperty "permissions")
  = Ok (VArr [])
  /\ run (ExpressGuard.check
            (createGuard
               (Guard.mk (fun _ _ => Throw (TypeError "boom"))
                         (fun _ _ => Throw (TypeError "boom"))
                         (fun _ => []))
               None)
            (RStr "a"))
         (VObj [("user", VObj [("permissions", VArr [])])])
     = (Ok tt, [NextWith (TypeError "boom")]).
Proof.
  split; [reflexivity|].
  exact (proj1 (proj1 (guard_exception_forwarded
                         (Guard.mk (fun _ _ => Throw (TypeError "boom"))
                                   (fun _ _ => Throw (TypeError "boom"))
                                   (fun _ => []))
                         None (RStr "a")
                         (VObj [("user", VObj [("permissions", VArr [])])])
                         (VArr []) (TypeError "boom") eq_refl)
                 eq_refl)).
Defined.

(** X20.  A scope string counts as the array of its tokens: whatever the
    guard, the options, the handler and the expression, a request whose
    user carries the permissions as a string is treated exactly like one
    whose user carries the array of that string's tokens. *)
Theorem scope_string_as_token_array (guardInstance : Guard.t)
  (options : option ExpressGuardOptions) (w : which) (r : required_scopes)
  (s : string) (props props' fields fields' : list (string * value))
  (Huser : lookup (or_default options requestProperty "user") props
           = VObj fields)
  (Hstr : lookup (or_default options permissionsProperty "permissions") fields
          = VStr s)
  (Huser' : lookup (or_default options requestProperty "user") props'
            = VObj fields')
  (Harr : lookup (or_default options permissionsProperty "permissions") fields'
          = VArr (map VStr (space_tokens s))) :
  run (handler (createGuard guardInstance options) w r) (VObj props)
  = run (handler (createGuard guardInstance options) w r) (VObj props').
Proof.
  rewrite !run_handler.
  rewrite (extract_of_field (VObj props) _ _ (VObj fields) (VStr s));
    [|simpl; now rewrite Huser|reflexivity|simpl; now rewrite Hstr].
  rewrite (extract_of_field (VObj props') _ _ (VObj fields')
             (VArr (map VStr (space_tokens s))));
    [|simpl; now rewrite Huser'|reflexivity|simpl; now rewrite Harr].
  reflexivity.
Qed.

Lemma scope_string_as_token_array_witness :
  run (handler (createGuard (Core.createGuard []) None) ByCannot (RStr "b"))
      (VObj [("user", VObj [("permissions", VStr " a  b")])])
  = run (handler (createGuard (Core.createGuard []) None) ByCannot (RStr "b"))
      (VObj [("user", VObj [("permissions", VArr [VStr "a"; VStr "b"])])]).
Proof.
  apply (scope_string_as_token_array (Core.createGuard []) None ByCannot
           (RStr "b") " a  b"
           [("user", VObj [("permissions", VStr " a  b")])]
           [("user", VObj [("permissions", VArr [VStr "a"; VStr "b"])])]
           [("permissions", VStr " a  b")]
           [("permissions", VArr [VStr "a"; VStr "b"])]);
    reflexivity.
Defined.

End ExpressMore.

(** ** The React adapter: properties *)

Module ReactProofs.
Import Core Spec.
Import React.
Import CoreProofs.

(** X21.  Outside a provider nothing is evaluated: the context hook,
    [useGuard], the [Guard] component and every component wrapped by
    [withPermission] throw the same [Error], whatever the guard the
    utilities were created from; none of them renders or denies. *)
Theorem hooks_need_provider (factory : Guard.t) (r : required_scopes)
  (children render : content) (C : Component.t)
  (props : list (string * value)) :
  Utilities.usePermissionContext (createGuard factory) None
  = Throws (Error
      "usePermissionContext must be used within a PermissionProvider")
  /\ Utilities.useGuard (createGuard factory) None r
     = Throws (Error
         "usePermissionContext must be used within a PermissionProvider")
  /\ Utilities.Guard (createGuard factory) None r children render
     = Throws (Error
         "usePermissionContext must be used within a PermissionProvider")
  /\ FC.render (Utilities.withPermission (createGuard factory) r C) None props
     = Throws (Error
         "usePermissionContext must be used within a PermissionProvider").
Proof. repeat split. Qed.

(** X22.  Under a provider the [Guard] component asks the provider's guard,
    not the guard the utilities were created from.  With the [render] prop
    left out, a callback child is called with the answer and its result is
    always rendered; any other child is rendered when the answer is [true]
    and replaced by [null] when it is [false]; an exception of the guard
    escapes the component. *)
Theorem Guard_under_provider (factory gProv : Guard.t) (scopes : value)
  (r : required_scopes) (children : content) :
  Utilities.PermissionProvider (createGuard factory) scopes gProv
    (fun context =>
       Utilities.Guard (createGuard factory) context r children
         (Node NodeUndefined))
  = match Guard.can gProv scopes r with
    | Ok hasPermission =>
        Returns (NodeFragment
          match children with
          | Callback f => f hasPermission
          | Node n => if hasPermission then n else NodeNull
          end)
    | Throw e => Throws (Raised e)
    end.
Proof.
  simpl. unfold PermissionProvider, Guard.
  unfold useGuard, usePermissionContext, useMemo. simpl.
  destruct (Guard.can gProv scopes r) as [b|e]; simpl; [|reflexivity].
  now destruct children.
Qed.

(** X23.  The [render] prop wins over the children: when [render] is given
    (anything but [undefined], [null] included) the children have no
    influence on what [Guard] returns; when it is left out, the children
    are used exactly as a [render] prop would be. *)
Theorem Guard_render_precedence (context : option PermissionContextValue)
  (r : required_scopes) (children children' render : content)
  (Hrender : render <> Node NodeUndefined) :
  Guard context r children render = Guard context r children' render
  /\ Guard context r children (Node NodeUndefined)
     = Guard context r (Node NodeUndefined) children.
Proof.
  unfold Guard. split.
  - destruct (useGuard context r) as [b|t]; simpl; [|reflexivity].
    destruct render as [[| | | |]|f]; try reflexivity. now elim Hrender.
  - destruct (useGuard context r) as [b|t]; simpl; [|reflexivity].
    destruct children as [[| | | |]|f]; reflexivity.
Qed.

Lemma Guard_render_precedence_witness :
  Node NodeNull <> Node NodeUndefined
  /\ Guard (Some (mkContext (VArr [VStr "a"]) (Core.createGuard [])))
       (RStr "a") (Node (NodeText "shown")) (Node NodeNull)
     = Guard (Some (mkContext (VArr [VStr "a"]) (Core.createGuard [])))
         (RStr "a") (Node (NodeText "other")) (Node NodeNull).
Proof.
  split; [discriminate|].
  apply (Guard_render_precedence
           (Some (mkContext (VArr [VStr "a"]) (Core.createGuard [])))
           (RStr "a") (Node (NodeText "shown")) (Node (NodeText "other"))
           (Node NodeNull)).
  discriminate.
Defined.

(** X24.  A component wrapped by [withPermission] renders, under a provider,
    the wrapped component with exactly the props it was given when the
    provider's guard answers [true], and [null] when it answers [false]; an
    exception of the guard escapes it. *)
Theorem withPermission_under_provider (factory gProv : Guard.t)
  (scopes : value) (r : required_scopes) (C : Component.t)
  (props : list (string * value)) :
  Utilities.PermissionProvider (createGuard factory) scopes gProv
    (fun context =>
       FC.render (Utilities.withPermission (createGuard factory) r C)
         context props)
  = match Guard.can gProv scopes r with
    | Ok true => Returns (NodeElement C props)
    | Ok false => Returns NodeNull
    | Throw e => Throws (Raised e)
    end.
Proof.
  simpl. unfold PermissionProvider, useGuard, usePermissionContext, useMemo.
  simpl. now destruct (Guard.can gProv scopes r) as [[|]|e].
Qed.

(** X25.  The display name of a wrapped component is
    [withPermission(...)] around the component's [displayName] if it has a
    non-empty one, else around its function name if that is non-empty, else
    around ["Component"]; it does not depend on the required permissions. *)
Theorem withPermission_displayName (r : required_scopes) (C : Component.t) :
  (forall d, Component.displayName C = Some d -> d <> "" ->
     FC.displayName (withPermission r C) = "withPermission(" ++ d ++ ")")
  /\ (Component.displayName C = None \/ Component.displayName C = Some "" ->
      Component.name C <> "" ->
      FC.displayName (withPermission r C)
      = "withPermission(" ++ Component.name C ++ ")")
  /\ (Component.displayName C = None \/ Component.displayName C = Some "" ->
      Component.name C = "" ->
      FC.displayName (withPermission r C) = "withPermission(Component)")
  /\ (forall r', FC.displayName (withPermission r' C)
                = FC.displayName (withPermission r C)).
Proof.
  split; [|split; [|split; [|reflexivity]]]; simpl.
  - intros d -> Hd. simpl. apply String.eqb_neq in Hd. now rewrite Hd.
  - intros [-> | ->] Hn; simpl; apply String.eqb_neq in Hn; now rewrite Hn.
  - intros [-> | ->] ->; reflexivity.
Qed.

Lemma withPermission_displayName_witness :
  Component.displayName (Component.mk None "UserEditorComponent") = None
  /\ Component.name (Component.mk None "UserEditorComponent") <> ""
  /\ FC.displayName
       (withPermission (RStr "user:edit")
          (Component.mk None "UserEditorComponent"))
     = "withPermission(UserEditorComponent)".
Proof.
  split; [reflexivity|]. split; [discriminate|].
  refine (proj1 (proj2 (withPermission_displayName (RStr "user:edit")
                          (Component.mk None "UserEditorComponent")))
            (or_introl eq_refl) _).
  discriminate.
Defined.

(** X26.  With a guard of the core and an array of scopes in the provider,
    [useGuard] never throws and returns the answer of [can]: [false] for
    [null] and [undefined], and for an expression of any of the three
    shapes [true] exactly when the expression is not the empty string and
    one of its AND-groups has every permission among the scopes. *)
Theorem useGuard_core (factory : Guard.t) (groups : list (list string))
  (h : list value) (r : required_scopes) :
  exists b,
    PermissionProvider (VArr h) (Core.createGuard groups)
      (fun context => Utilities.useGuard (createGuard factory) context r)
    = Returns b
    /\ Core.can (VArr h) r = Ok b
    /\ (r = RNull \/ r = RUndefined -> b = false)
    /\ (forall e, r = to_required e -> e <> AnyOf [] ->
        (b = true <-> e <> Single "" /\ granted h e)).
Proof.
  destruct (can_array_returns h r) as [b Hb]. exists b.
  split; [|split; [exact Hb|split]].
  - simpl. unfold PermissionProvider, useGuard, usePermissionContext, useMemo.
    simpl. now rewrite Hb.
  - intros [-> | ->]; rewrite can_falsy in Hb by (now right); congruence.
  - intros e -> Hshape.
    destruct (expression_eq_dec e (Single "")) as [->|Htruthy].
    + rewrite can_falsy in Hb by (now right). injection Hb as <-.
      split; [discriminate|intros [H _]; now elim H].
    + rewrite can_expression in Hb by assumption. injection Hb as <-.
      rewrite existsb_granted. tauto.
Qed.

Lemma useGuard_core_witness :
  to_required (AnyOf [["a"]; ["b"; "c"]]) = to_required (AnyOf [["a"]; ["b"; "c"]])
  /\ AnyOf [["a"]; ["b"; "c"]] <> AnyOf []
  /\ exists b,
       PermissionProvider (VArr [VStr "c"; VStr "b"]) (Core.createGuard [])
         (fun context =>
            Utilities.useGuard (createGuard (Core.createGuard [])) context
              (to_required (AnyOf [["a"]; ["b"; "c"]])))
       = Returns b
       /\ (b = true <->
           AnyOf [["a"]; ["b"; "c"]] <> Single "" /\
           granted [VStr "c"; VStr "b"] (AnyOf [["a"]; ["b"; "c"]])).
Proof.
  split; [reflexivity|]. split; [discriminate|].
  destruct (useGuard_core (Core.createGuard []) [] [VStr "c"; VStr "b"]
              (to_required (AnyOf [["a"]; ["b"; "c"]])))
    as [b [Hrun [_ [_ Hiff]]]].
  exists b. split; [exact Hrun|].
  apply Hiff; [reflexivity|discriminate].
Defined.

End ReactProofs.
